(** * Package sorter: classification of packages by size and mass

    A shallow embedding of [app_src/src/utils/packageSorter.ts] and the
    properties its specification states about it.

    The TypeScript [number] type is IEEE 754 binary64.  It is modelled by
    the [spec_float] type of the standard library instantiated at
    precision 53 and maximal exponent 1024, so that rounding of the
    products, the two infinities and NaN are all part of the model. *)

From Stdlib Require Import ZArith Bool String List Permutation Lia.
From Stdlib Require Import Floats.SpecFloat.
Import ListNotations.

Local Open Scope Z_scope.

(** ** Numbers *)

Module Number.

Definition prec : Z := 53.
Definition emax : Z := 1024.

Definition number : Type := spec_float.

(** A value is a genuine binary64 when its mantissa and exponent are in
    canonical form. *)
Definition is_double (x : number) : bool := valid_binary prec emax x.

(** An integer literal of the source. *)
Definition lit (z : Z) : number := binary_normalize prec emax z 0 false.

Definition NaN : number := S754_nan.
Definition Infinity : number := S754_infinity false.
Definition NegInfinity : number := S754_infinity true.

(** [x * y], rounded to nearest, ties to even. *)
Definition mul (x y : number) : number := SFmul prec emax x y.

(** [x <= y] and [x >= y]; both are false as soon as one side is NaN. *)
Definition le (x y : number) : bool := SFleb x y.
Definition ge (x y : number) : bool := SFleb y x.

(** [x < y] and [x > y], used to state strict bounds. *)
Definition lt (x y : number) : bool := SFltb x y.
Definition gt (x y : number) : bool := SFltb y x.

(** The global [isFinite] applied to a number. *)
Definition isFinite (x : number) : bool :=
  match x with
  | S754_nan | S754_infinity _ => false
  | S754_zero _ | S754_finite _ _ _ => true
  end.

End Number.

Import Number.

Declare Scope number_scope.
Delimit Scope number_scope with num.
Infix "*" := mul : number_scope.
Infix "<=?" := le : number_scope.
Infix ">=?" := ge : number_scope.
Infix "<?" := lt : number_scope.
Infix ">?" := gt : number_scope.

(** ** Exceptions

    A call either returns a value or throws [new Error(message)]. *)

Inductive completion (A : Type) : Type :=
| Return (a : A)
| Throw (message : string).

Arguments Return {A} a.
Arguments Throw {A} message.

Definition bind {A B : Type} (c : completion A) (k : A -> completion B)
  : completion B :=
  match c with
  | Return a => k a
  | Throw message => Throw message
  end.

Notation "c ;; k" := (bind c (fun _ => k))
  (at level 61, right associativity).
Notation "'let*' x ':=' c 'in' k" := (bind c (fun x => k))
  (at level 61, x name, c at next level, right associativity).

(** ** The source *)

Inductive PackageType : Type := STANDARD | SPECIAL | REJECTED.

Definition PackageType_eqb (a b : PackageType) : bool :=
  match a, b with
  | STANDARD, STANDARD | SPECIAL, SPECIAL | REJECTED, REJECTED => true
  | _, _ => false
  end.

Module PackageResult.
Record t : Type := Build {
  width : number;
  height : number;
  length : number;
  mass : number;
  volume : number;
  type : PackageType;
  isBulky : bool;
  isHeavy : bool;
  reason : string
}.
End PackageResult.

Definition InvalidRange : string :=
  "Package dimensions and mass must be positive values greater than 0".

Definition NotFinite : string :=
  "Package dimensions and mass must be finite numbers".

Definition isBulky (width height length : number) : bool :=
  let volume := (width * height * length)%num in
  let hasLargeDimension :=
    (width >=? lit 150)%num || (height >=? lit 150)%num
    || (length >=? lit 150)%num in
  (volume >=? lit 1000000)%num || hasLargeDimension.

Definition isHeavy (mass : number) : bool := (mass >=? lit 20)%num.

Definition validateInputs (width height length mass : number)
  : completion unit :=
  if (width <=? lit 0)%num || (height <=? lit 0)%num
     || (length <=? lit 0)%num || (mass <=? lit 0)%num
  then Throw InvalidRange
  else if negb (isFinite width) || negb (isFinite height)
          || negb (isFinite length) || negb (isFinite mass)
  then Throw NotFinite
  else Return tt.

Definition sort (width height length mass : number)
  : completion PackageType :=
  validateInputs width height length mass ;;
  let bulky := isBulky width height length in
  let heavy := isHeavy mass in
  if bulky && heavy then Return REJECTED
  else if bulky || heavy then Return SPECIAL
  else Return STANDARD.

Definition sortWithDetails (width height length mass : number)
  : completion PackageResult.t :=
  validateInputs width height length mass ;;
  let volume := (width * height * length)%num in
  let bulky := isBulky width height length in
  let heavy := isHeavy mass in
  let* type := sort width height length mass in
  let reason :=
    if PackageType_eqb type REJECTED then
      "Package is both bulky and heavy"%string
    else if PackageType_eqb type SPECIAL then
      if bulky && negb heavy then
        let volumeExceeded := (volume >=? lit 1000000)%num in
        let dimensionExceeded :=
          (width >=? lit 150)%num || (height >=? lit 150)%num
          || (length >=? lit 150)%num in
        if volumeExceeded && dimensionExceeded then
          "Package is bulky (volume ≥ 1M cm³ and dimension ≥ 150 cm)"%string
        else if volumeExceeded then
          "Package is bulky (volume ≥ 1,000,000 cm³)"%string
        else
          "Package is bulky (dimension ≥ 150 cm)"%string
      else if heavy && negb bulky then
        "Package is heavy (mass ≥ 20 kg)"%string
      else
        ""%string
    else
      "Package meets standard criteria"%string in
  Return (PackageResult.Build width height length mass volume type
            bulky heavy reason).

(** ** Valid inputs and the reason as the specification words it *)

(** An input value is valid when it is finite and strictly greater than 0. *)
Definition positive_finite (x : number) : bool :=
  isFinite x && (x >? lit 0)%num.

Definition valid (width height length mass : number) : bool :=
  positive_finite width && positive_finite height
  && positive_finite length && positive_finite mass.

(** The decision table of the specification. *)
Definition decision (bulky heavy : bool) : PackageType :=
  match bulky, heavy with
  | true, true => REJECTED
  | true, false | false, true => SPECIAL
  | false, false => STANDARD
  end.

(** The two conditions [validateInputs] tests, in the order it tests them. *)
Definition anyNonPositive (width height length mass : number) : bool :=
  (width <=? lit 0)%num || (height <=? lit 0)%num
  || (length <=? lit 0)%num || (mass <=? lit 0)%num.

Definition anyNonFinite (width height length mass : number) : bool :=
  negb (isFinite width) || negb (isFinite height)
  || negb (isFinite length) || negb (isFinite mass).

(** The two tests of [isBulky]. *)
Definition volumeExceeded (width height length : number) : bool :=
  (width * height * length >=? lit 1000000)%num.

Definition dimensionExceeded (width height length : number) : bool :=
  (width >=? lit 150)%num || (height >=? lit 150)%num
  || (length >=? lit 150)%num.

(** Three dimensions whose product crosses the volume threshold in one
    order of multiplication and not in another:
    63.30206016712772, 133.89593995678604 and 117.98172652076207. *)
Definition w0 : number := S754_finite false 0x1fa6a9e8559e72 (-47).
Definition h0 : number := S754_finite false 0x10bcab8a45b26c (-45).
Definition l0 : number := S754_finite false 0x1d7ed49b79127e (-46).

(** Two sides, 141.15024199842787 and 47.23099707289853, whose product
    with 150 crosses the volume threshold in one order only. *)
Definition h1 : number := S754_finite false 0x11a4cec84eb778 (-45).
Definition l1 : number := S754_finite false 0x179d914fe4c914 (-47).

(** ** The reason, as the specification selects it *)

(** What a reason says. *)
Inductive topic : Type :=
| BothBulkyAndHeavy
| VolumeAndDimension
| VolumeAlone
| DimensionAlone
| MassThreshold
| StandardCriteria.

(** The priority order of the specification: REJECTED first, then bulky
    and not heavy with its three sub-cases, then heavy and not bulky, and
    the standard criteria last. *)
Definition topic_spec (classification : PackageType)
  (width height length mass : number) : topic :=
  let bulky := isBulky width height length in
  let heavy := isHeavy mass in
  let volumeExceeded := volumeExceeded width height length in
  let dimensionExceeded := dimensionExceeded width height length in
  if PackageType_eqb classification REJECTED then BothBulkyAndHeavy
  else if bulky && negb heavy then
    if volumeExceeded && dimensionExceeded then VolumeAndDimension
    else if volumeExceeded && negb dimensionExceeded then VolumeAlone
    else DimensionAlone
  else if heavy && negb bulky then MassThreshold
  else StandardCriteria.

(** The text the source uses for each topic. *)
Definition topic_text (t : topic) : string :=
  match t with
  | BothBulkyAndHeavy => "Package is both bulky and heavy"
  | VolumeAndDimension =>
      "Package is bulky (volume ≥ 1M cm³ and dimension ≥ 150 cm)"
  | VolumeAlone => "Package is bulky (volume ≥ 1,000,000 cm³)"
  | DimensionAlone => "Package is bulky (dimension ≥ 150 cm)"
  | MassThreshold => "Package is heavy (mass ≥ 20 kg)"
  | StandardCriteria => "Package meets standard criteria"
  end.

(** [cites what reason]: the text [what] occurs in [reason]. *)
Definition cites (what reason : string) : bool :=
  match String.index 0 what reason with
  | Some _ => true
  | None => false
  end.

(** What each topic has to mention, and what it must not. *)
Definition topic_cited (t : topic) : bool :=
  let text := topic_text t in
  match t with
  | BothBulkyAndHeavy => cites "both bulky and heavy" text
  | VolumeAndDimension => cites "volume" text && cites "dimension" text
  | VolumeAlone => cites "volume" text && negb (cites "dimension" text)
  | DimensionAlone => cites "dimension" text && negb (cites "volume" text)
  | MassThreshold =>
      cites "mass ≥ 20" text && negb (cites "volume" text)
      && negb (cites "dimension" text)
  | StandardCriteria => cites "meets standard criteria" text
  end.

(** ** The catalogue of example packages *)

Module TestCase.
Record t : Type := Build {
  name : string;
  width : number;
  height : number;
  length : number;
  mass : number
}.
End TestCase.

Definition testCases : list TestCase.t :=
  [ TestCase.Build "Small Standard Package" (lit 10) (lit 10) (lit 10) (lit 5);
    TestCase.Build "Large Volume (Bulky)" (lit 100) (lit 100) (lit 100)
      (lit 15);
    TestCase.Build "Long Dimension (Bulky)" (lit 200) (lit 10) (lit 10)
      (lit 10);
    TestCase.Build "Heavy Package" (lit 50) (lit 50) (lit 50) (lit 25);
    TestCase.Build "Rejected Package" (lit 200) (lit 100) (lit 100) (lit 30);
    TestCase.Build "Edge Case: Exactly 150cm" (lit 150) (lit 10) (lit 10)
      (lit 10);
    TestCase.Build "Edge Case: Exactly 20kg" (lit 50) (lit 50) (lit 50)
      (lit 20) ].

(** ** The form of the application

    The component keeps five refs; [result] is computed from the first
    four, and the template shows one card according to [result]. *)

Module App.

Record State : Type := BuildState {
  width : number;
  height : number;
  length : number;
  mass : number;
  selectedTestCase : string
}.

Definition initial : State :=
  BuildState (lit 50) (lit 50) (lit 50) (lit 10) "".

Record Result : Type := BuildResult {
  data : option PackageResult.t;
  error : string
}.

(** The [try]/[catch] around [sortWithDetails].  Everything the callee
    throws is an [Error], so the message is the one it was built with. *)
Definition result (s : State) : Result :=
  match sortWithDetails (width s) (height s) (length s) (mass s) with
  | Return data => BuildResult (Some data) ""
  | Throw message => BuildResult None message
  end.

Definition loadTestCase (caseName : string) (s : State) : State :=
  match find (fun tc => String.eqb (TestCase.name tc) caseName) testCases with
  | Some testCase =>
      BuildState (TestCase.width testCase) (TestCase.height testCase)
        (TestCase.length testCase) (TestCase.mass testCase) caseName
  | None => s
  end.

Definition clearForm (_ : State) : State :=
  BuildState (lit 50) (lit 50) (lit 50) (lit 10) "".

(** What the results section renders: [v-if="result.error"], then
    [v-else-if="result.data"]; a string is truthy when it is not empty. *)
Inductive card : Type :=
| ErrorCard (message : string)
| ResultCard (data : PackageResult.t)
| NoCard.

Definition truthy (s : string) : bool :=
  match s with
  | EmptyString => false
  | String _ _ => true
  end.

Definition shown (r : Result) : card :=
  if truthy (error r) then ErrorCard (error r)
  else match data r with
       | Some d => ResultCard d
       | None => NoCard
       end.

(** The two kinds of buttons of the form. *)
Inductive button : Type :=
| LoadExample (caseName : string)
| ResetDefaults.

Definition press (b : button) (s : State) : State :=
  match b with
  | LoadExample caseName => loadTestCase caseName s
  | ResetDefaults => clearForm s
  end.

(** The state after pressing the buttons in order. *)
Definition presses (bs : list button) (s : State) : State :=
  fold_left (fun st b => press b st) bs s.

End App.

(** ** Reading the catalogue *)

(** The predicate [loadTestCase] passes to [find]. *)
Definition caseNamed (caseName : string) (tc : TestCase.t) : bool :=
  String.eqb (TestCase.name tc) caseName.

(** The form once a catalogue entry is loaded. *)
Definition caseState (tc : TestCase.t) : App.State :=
  App.BuildState (TestCase.width tc) (TestCase.height tc)
    (TestCase.length tc) (TestCase.mass tc) (TestCase.name tc).

Definition caseValid (tc : TestCase.t) : bool :=
  valid (TestCase.width tc) (TestCase.height tc) (TestCase.length tc)
    (TestCase.mass tc).

(** The form holds the defaults with nothing selected, or a catalogue
    entry with that entry selected. *)
Definition pristine (s : App.State) : Prop :=
  s = App.initial \/ exists tc, In tc testCases /\ s = caseState tc.

(** ** Whole numbers *)

(** The binary64 value of a whole number below 2^53: the number shifted
    left until its mantissa has 53 bits, with the matching exponent. *)
Definition canon (p : positive) : number :=
  S754_finite false
    (Pos.shiftl p (Z.to_N (53 - Z.pos (Pos.size p))))
    (Z.pos (Pos.size p) - 53).

(** The product of a list of whole numbers. *)
Definition product (zs : list Z) : Z := fold_right Z.mul 1 zs.

(** ** Orders used to state monotonicity *)

(** The severity of a classification. *)
Definition rank (t : PackageType) : nat :=
  match t with
  | STANDARD => 0
  | SPECIAL => 1
  | REJECTED => 2
  end.

(** Zero of either sign, a positive finite value or positive Infinity. *)
Definition nonNegative (x : number) : bool :=
  match x with
  | S754_zero _ | S754_finite false _ _ | S754_infinity false => true
  | _ => false
  end.

(** ** Comparisons of binary64 values *)

Section Comparisons.

Lemma SFcompare_antisym (a b : number) :
  SFcompare b a = option_map CompOpp (SFcompare a b).
Proof.
  destruct a as [sa | sa | | sa ma ea], b as [sb | sb | | sb mb eb];
    simpl; try reflexivity;
    try (destruct sa; reflexivity); try (destruct sb; reflexivity);
    try (destruct sa, sb; reflexivity).
  change (Pos.compare_cont Eq ma mb) with (Pos.compare ma mb).
  change (Pos.compare_cont Eq mb ma) with (Pos.compare mb ma).
  rewrite (Z.compare_antisym ea eb), (Pos.compare_antisym ma mb).
  destruct sa, sb; simpl; try reflexivity;
    destruct (ea ?= eb)%Z; simpl; reflexivity.
Qed.

Lemma lt_not_ge (a b : number) : (a <? b)%num = true -> (a >=? b)%num = false.
Proof.
  unfold lt, ge, SFltb, SFleb. rewrite (SFcompare_antisym a b).
  destruct (SFcompare a b) as [[ | | ] | ]; simpl; congruence.
Qed.

Lemma gt_not_le (a b : number) : (a >? b)%num = true -> (a <=? b)%num = false.
Proof. unfold gt, le. intros H. apply (lt_not_ge b a H). Qed.

Lemma eqb_ge (a b : number) : SFeqb a b = true -> (a >=? b)%num = true.
Proof.
  unfold ge, SFeqb, SFleb. rewrite (SFcompare_antisym a b).
  destruct (SFcompare a b) as [[ | | ] | ]; simpl; congruence.
Qed.

End Comparisons.

(** ** Validation *)

Section Validation.

Variables width height length mass : number.

Lemma validateInputs_eq :
  validateInputs width height length mass =
  if anyNonPositive width height length mass then Throw InvalidRange
  else if anyNonFinite width height length mass then Throw NotFinite
  else Return tt.
Proof. reflexivity. Qed.

Lemma valid_passes :
  valid width height length mass = true ->
  anyNonPositive width height length mass = false
  /\ anyNonFinite width height length mass = false.
Proof.
  unfold valid, positive_finite, anyNonPositive, anyNonFinite.
  rewrite !andb_true_iff.
  intros [[[[Fw Pw] [Fh Ph]] [Fl Pl]] [Fm Pm]].
  rewrite (gt_not_le _ _ Pw), (gt_not_le _ _ Ph),
    (gt_not_le _ _ Pl), (gt_not_le _ _ Pm), Fw, Fh, Fl, Fm.
  split; reflexivity.
Qed.

Lemma validateInputs_valid :
  valid width height length mass = true ->
  validateInputs width height length mass = Return tt.
Proof.
  intros V. destruct (valid_passes V) as [P F].
  rewrite validateInputs_eq, P, F. reflexivity.
Qed.

Lemma sort_after_validation :
  sort width height length mass =
  validateInputs width height length mass ;;
  Return (decision (isBulky width height length) (isHeavy mass)).
Proof.
  unfold sort.
  destruct (validateInputs width height length mass); simpl; [ | reflexivity ].
  destruct (isBulky width height length), (isHeavy mass); reflexivity.
Qed.

Lemma sort_valid :
  valid width height length mass = true ->
  sort width height length mass =
  Return (decision (isBulky width height length) (isHeavy mass)).
Proof.
  intros V. rewrite sort_after_validation, (validateInputs_valid V).
  reflexivity.
Qed.

End Validation.

(** ** The detailed result on valid inputs *)

Section Details.

Variables width height length mass : number.
Hypothesis V : valid width height length mass = true.

Let bulky := isBulky width height length.
Let heavy := isHeavy mass.
Let type := decision bulky heavy.

Lemma sortWithDetails_valid :
  sortWithDetails width height length mass =
  Return (PackageResult.Build width height length mass
            (width * height * length)%num type bulky heavy
            (topic_text (topic_spec type width height length mass))).
Proof.
  unfold sortWithDetails, topic_spec.
  rewrite (validateInputs_valid _ _ _ _ V), (sort_valid _ _ _ _ V).
  cbn [bind]. do 2 f_equal.
  subst type bulky heavy. unfold isBulky.
  fold (volumeExceeded width height length).
  fold (dimensionExceeded width height length).
  destruct (volumeExceeded width height length),
    (dimensionExceeded width height length), (isHeavy mass);
    reflexivity.
Qed.

End Details.

(** ** The classification *)

(** C1. On every valid input [sort] returns REJECTED exactly when the
    package is both bulky and heavy, SPECIAL exactly when one and only one
    of the two predicates holds, and STANDARD exactly when neither holds;
    a package that is both bulky and heavy is never SPECIAL. *)
Theorem sort_decision_table (width height length mass : number) :
  valid width height length mass = true ->
  let bulky := isBulky width height length in
  let heavy := isHeavy mass in
  (sort width height length mass = Return REJECTED
   <-> bulky = true /\ heavy = true)
  /\ (sort width height length mass = Return SPECIAL
      <-> (bulky = true /\ heavy = false) \/ (bulky = false /\ heavy = true))
  /\ (sort width height length mass = Return STANDARD
      <-> bulky = false /\ heavy = false)
  /\ (bulky = true -> heavy = true ->
      sort width height length mass = Return REJECTED
      /\ sort width height length mass <> Return SPECIAL).
Proof.
  intros V bulky heavy. rewrite (sort_valid _ _ _ _ V).
  fold bulky heavy. clearbody bulky heavy.
  destruct bulky, heavy; cbn [decision];
    repeat split; intros; try discriminate; try reflexivity;
    try tauto;
    repeat match goal with
      | H : _ /\ _ |- _ => destruct H
      | H : _ \/ _ |- _ => destruct H
      end; discriminate.
Qed.

Lemma sort_decision_table_witness :
  valid (lit 150) (lit 10) (lit 10) (lit 20) = true
  /\ sort (lit 150) (lit 10) (lit 10) (lit 20) = Return REJECTED.
Proof.
  split; [ reflexivity | ].
  destruct (sort_decision_table (lit 150) (lit 10) (lit 10) (lit 20)
              eq_refl) as (_ & _ & _ & Priority).
  apply Priority; reflexivity.
Defined.

(** C2. [isBulky] holds exactly when the volume, computed as the source
    computes it (the binary64 product of width and height, multiplied by
    length), is at least 1,000,000 or one of the three dimensions is at
    least 150.  Both bounds are inclusive: a volume equal to 1,000,000 or
    a dimension equal to 150 makes the package bulky, while a volume
    below 1,000,000 with every dimension below 150 does not. *)
Theorem isBulky_thresholds (width height length : number) :
  let volume := (width * height * length)%num in
  (isBulky width height length = true
   <-> (volume >=? lit 1000000)%num = true
       \/ (width >=? lit 150)%num = true
       \/ (height >=? lit 150)%num = true
       \/ (length >=? lit 150)%num = true)
  /\ (SFeqb volume (lit 1000000) = true -> isBulky width height length = true)
  /\ (SFeqb width (lit 150) = true \/ SFeqb height (lit 150) = true
      \/ SFeqb length (lit 150) = true ->
      isBulky width height length = true)
  /\ ((volume <? lit 1000000)%num = true ->
      (width <? lit 150)%num = true ->
      (height <? lit 150)%num = true ->
      (length <? lit 150)%num = true ->
      isBulky width height length = false).
Proof.
  intros volume. unfold isBulky. fold volume.
  rewrite !orb_true_iff.
  split; [ tauto | ]. split; [ | split ].
  - intros E. left. now apply eqb_ge.
  - intros [E | [E | E]]; apply eqb_ge in E; tauto.
  - intros Hv Hw Hh Hl.
    rewrite (lt_not_ge _ _ Hv), (lt_not_ge _ _ Hw),
      (lt_not_ge _ _ Hh), (lt_not_ge _ _ Hl).
    reflexivity.
Qed.

Lemma isBulky_thresholds_witness :
  isBulky (lit 100) (lit 100) (lit 100) = true
  /\ isBulky (lit 10) (lit 150) (lit 10) = true
  /\ isBulky (lit 99) (lit 99) (lit 99) = false.
Proof.
  split; [ | split ].
  - destruct (isBulky_thresholds (lit 100) (lit 100) (lit 100))
      as (_ & AtVolume & _ & _).
    apply AtVolume. reflexivity.
  - destruct (isBulky_thresholds (lit 10) (lit 150) (lit 10))
      as (_ & _ & AtDimension & _).
    apply AtDimension. right. left. reflexivity.
  - destruct (isBulky_thresholds (lit 99) (lit 99) (lit 99))
      as (_ & _ & _ & Below).
    apply Below; reflexivity.
Defined.

(** C5. [isHeavy] holds exactly when the mass is at least 20; the bound
    is inclusive, so a mass equal to 20 is heavy and every mass strictly
    below 20 is not. *)
Theorem isHeavy_threshold (mass : number) :
  (isHeavy mass = true <-> (mass >=? lit 20)%num = true)
  /\ (SFeqb mass (lit 20) = true -> isHeavy mass = true)
  /\ ((mass <? lit 20)%num = true -> isHeavy mass = false).
Proof.
  unfold isHeavy. split; [ tauto | split ].
  - apply eqb_ge.
  - apply lt_not_ge.
Qed.

Lemma isHeavy_threshold_witness :
  isHeavy (lit 20) = true /\ isHeavy (lit 19) = false.
Proof.
  split.
  - destruct (isHeavy_threshold (lit 20)) as (_ & AtMass & _).
    apply AtMass. reflexivity.
  - destruct (isHeavy_threshold (lit 19)) as (_ & _ & Below).
    apply Below. reflexivity.
Defined.

(** C6. On every valid input [sort] returns one of STANDARD, SPECIAL and
    REJECTED, and [sortWithDetails] returns a record whose [type] field is
    the value [sort] returns on the same four inputs. *)
Theorem sort_total_and_type_agrees (width height length mass : number) :
  valid width height length mass = true ->
  exists t : PackageType,
    sort width height length mass = Return t
    /\ (t = STANDARD \/ t = SPECIAL \/ t = REJECTED)
    /\ exists r : PackageResult.t,
        sortWithDetails width height length mass = Return r
        /\ PackageResult.type r = t.
Proof.
  intros V.
  exists (decision (isBulky width height length) (isHeavy mass)).
  split; [ exact (sort_valid _ _ _ _ V) | split ].
  - destruct (isBulky width height length), (isHeavy mass); cbn; tauto.
  - eexists. split; [ exact (sortWithDetails_valid _ _ _ _ V) | reflexivity ].
Qed.

Lemma sort_total_and_type_agrees_witness :
  valid (lit 50) (lit 50) (lit 50) (lit 20) = true
  /\ exists t : PackageType,
      sort (lit 50) (lit 50) (lit 50) (lit 20) = Return t
      /\ (t = STANDARD \/ t = SPECIAL \/ t = REJECTED)
      /\ exists r : PackageResult.t,
          sortWithDetails (lit 50) (lit 50) (lit 50) (lit 20) = Return r
          /\ PackageResult.type r = t.
Proof.
  split; [ reflexivity | ].
  apply (sort_total_and_type_agrees (lit 50) (lit 50) (lit 50) (lit 20)).
  reflexivity.
Defined.

(** ** The detailed result *)

(** C7. On every valid input [sortWithDetails] returns a record whose
    type is the class [sort] returns, the one the decision table gives
    for [isBulky] and [isHeavy], and whose reason is the one the priority
    order selects for that class: both bulky and heavy when the type is
    REJECTED; otherwise, for a bulky package that is not heavy, volume
    and dimension when both tests hold independently, volume alone when
    only the volume test holds, dimension alone otherwise; otherwise, for
    a heavy package that is not bulky, the mass bound of 20; otherwise
    the standard criteria.  Each text cites what its case names. *)
Theorem reason_priority (width height length mass : number) :
  valid width height length mass = true ->
  exists r : PackageResult.t,
    sortWithDetails width height length mass = Return r
    /\ sort width height length mass = Return (PackageResult.type r)
    /\ PackageResult.type r
       = decision (isBulky width height length) (isHeavy mass)
    /\ PackageResult.reason r =
       topic_text (topic_spec (PackageResult.type r) width height length mass)
    /\ topic_cited
         (topic_spec (PackageResult.type r) width height length mass) = true.
Proof.
  intros V. eexists. split; [ exact (sortWithDetails_valid _ _ _ _ V) | ].
  cbn [PackageResult.reason PackageResult.type].
  split; [ exact (sort_valid _ _ _ _ V) | ].
  split; [ reflexivity | ]. split; [ reflexivity | ].
  now destruct (topic_spec _ width height length mass).
Qed.

Lemma reason_priority_witness :
  valid (lit 200) (lit 100) (lit 100) (lit 15) = true
  /\ exists r : PackageResult.t,
      sortWithDetails (lit 200) (lit 100) (lit 100) (lit 15) = Return r
      /\ sort (lit 200) (lit 100) (lit 100) (lit 15)
         = Return (PackageResult.type r)
      /\ PackageResult.type r
         = decision (isBulky (lit 200) (lit 100) (lit 100)) (isHeavy (lit 15))
      /\ PackageResult.reason r =
         topic_text
           (topic_spec (PackageResult.type r)
              (lit 200) (lit 100) (lit 100) (lit 15))
      /\ topic_cited
           (topic_spec (PackageResult.type r)
              (lit 200) (lit 100) (lit 100) (lit 15)) = true.
Proof.
  split; [ reflexivity | ].
  apply (reason_priority (lit 200) (lit 100) (lit 100) (lit 15)).
  reflexivity.
Defined.

(** C8. On every valid input the record [sortWithDetails] returns holds
    the four inputs unchanged, the volume width * height * length, and
    the values of [isBulky] and [isHeavy] on those inputs. *)
Theorem sortWithDetails_fields (width height length mass : number) :
  valid width height length mass = true ->
  exists r : PackageResult.t,
    sortWithDetails width height length mass = Return r
    /\ PackageResult.width r = width
    /\ PackageResult.height r = height
    /\ PackageResult.length r = length
    /\ PackageResult.mass r = mass
    /\ PackageResult.volume r = (width * height * length)%num
    /\ PackageResult.isBulky r = isBulky width height length
    /\ PackageResult.isHeavy r = isHeavy mass.
Proof.
  intros V. eexists. split; [ exact (sortWithDetails_valid _ _ _ _ V) | ].
  cbn. repeat split.
Qed.

Lemma sortWithDetails_fields_witness :
  valid (lit 10) (lit 10) (lit 10) (lit 5) = true
  /\ exists r : PackageResult.t,
      sortWithDetails (lit 10) (lit 10) (lit 10) (lit 5) = Return r
      /\ PackageResult.width r = lit 10
      /\ PackageResult.height r = lit 10
      /\ PackageResult.length r = lit 10
      /\ PackageResult.mass r = lit 5
      /\ PackageResult.volume r = (lit 10 * lit 10 * lit 10)%num
      /\ PackageResult.isBulky r = isBulky (lit 10) (lit 10) (lit 10)
      /\ PackageResult.isHeavy r = isHeavy (lit 5).
Proof.
  split; [ reflexivity | ].
  apply (sortWithDetails_fields (lit 10) (lit 10) (lit 10) (lit 5)).
  reflexivity.
Defined.

(** C10. On every valid input the reason of [sortWithDetails] is not the
    empty string: when the type is SPECIAL one and only one of the two
    predicates holds, so one of the two sub-branches assigns the reason
    and the initial empty string is never returned. *)
Theorem reason_not_empty (width height length mass : number) :
  valid width height length mass = true ->
  exists r : PackageResult.t,
    sortWithDetails width height length mass = Return r
    /\ (PackageResult.type r = SPECIAL ->
        let bulky := PackageResult.isBulky r in
        let heavy := PackageResult.isHeavy r in
        bulky && negb heavy = true \/ heavy && negb bulky = true)
    /\ PackageResult.reason r <> EmptyString
    /\ (0 < String.length (PackageResult.reason r))%nat.
Proof.
  intros V. eexists. split; [ exact (sortWithDetails_valid _ _ _ _ V) | ].
  cbn [PackageResult.reason PackageResult.type PackageResult.isBulky
         PackageResult.isHeavy].
  split.
  - destruct (isBulky width height length), (isHeavy mass); cbn;
      intros; try discriminate; tauto.
  - destruct (topic_spec _ width height length mass); cbn;
      split; try discriminate; lia.
Qed.

Lemma reason_not_empty_witness :
  valid (lit 50) (lit 50) (lit 50) (lit 25) = true
  /\ exists r : PackageResult.t,
      sortWithDetails (lit 50) (lit 50) (lit 50) (lit 25) = Return r
      /\ (PackageResult.type r = SPECIAL ->
          let bulky := PackageResult.isBulky r in
          let heavy := PackageResult.isHeavy r in
          bulky && negb heavy = true \/ heavy && negb bulky = true)
      /\ PackageResult.reason r <> EmptyString
      /\ (0 < String.length (PackageResult.reason r))%nat.
Proof.
  split; [ reflexivity | ].
  apply (reason_not_empty (lit 50) (lit 50) (lit 50) (lit 25)).
  reflexivity.
Defined.

(** ** Failing validation *)

Section Failure.

Variables width height length mass : number.

Lemma anyNonPositive_true_iff :
  anyNonPositive width height length mass = true
  <-> (width <=? lit 0)%num = true \/ (height <=? lit 0)%num = true
      \/ (length <=? lit 0)%num = true \/ (mass <=? lit 0)%num = true.
Proof. unfold anyNonPositive. rewrite !orb_true_iff. tauto. Qed.

Lemma anyNonPositive_false_iff :
  anyNonPositive width height length mass = false
  <-> (width <=? lit 0)%num = false /\ (height <=? lit 0)%num = false
      /\ (length <=? lit 0)%num = false /\ (mass <=? lit 0)%num = false.
Proof. unfold anyNonPositive. rewrite !orb_false_iff. tauto. Qed.

Lemma anyNonFinite_true_iff :
  anyNonFinite width height length mass = true
  <-> isFinite width = false \/ isFinite height = false
      \/ isFinite length = false \/ isFinite mass = false.
Proof.
  unfold anyNonFinite. rewrite !orb_true_iff, !negb_true_iff. tauto.
Qed.

(** A failure of [validateInputs] ends both entry points with the same
    error, before anything else is computed. *)
Lemma validation_failure_propagates (message : string) :
  validateInputs width height length mass = Throw message ->
  sort width height length mass = Throw message
  /\ sortWithDetails width height length mass = Throw message.
Proof.
  intros E. unfold sort, sortWithDetails. rewrite E. split; reflexivity.
Qed.

Lemma nonPositive_throws :
  anyNonPositive width height length mass = true ->
  validateInputs width height length mass = Throw InvalidRange.
Proof. intros E. rewrite validateInputs_eq, E. reflexivity. Qed.

Lemma nonFinite_throws :
  anyNonPositive width height length mass = false ->
  anyNonFinite width height length mass = true ->
  validateInputs width height length mass = Throw NotFinite.
Proof. intros P F. rewrite validateInputs_eq, P, F. reflexivity. Qed.

End Failure.

(** C4. Whenever one of width, height, length and mass is at most 0,
    [sort] and [sortWithDetails] both fail with the InvalidRange error.
    Each of them runs the validation itself, so a failure of the
    validation is the outcome of either call alone, and a failing call
    returns no result at all. *)
Theorem nonPositive_rejected (width height length mass : number) :
  (width <=? lit 0)%num = true \/ (height <=? lit 0)%num = true
  \/ (length <=? lit 0)%num = true \/ (mass <=? lit 0)%num = true ->
  (sort width height length mass = Throw InvalidRange
   /\ sortWithDetails width height length mass = Throw InvalidRange)
  /\ (forall message : string,
        validateInputs width height length mass = Throw message ->
        sort width height length mass = Throw message
        /\ sortWithDetails width height length mass = Throw message)
  /\ (forall t : PackageType, sort width height length mass <> Return t)
  /\ (forall r : PackageResult.t,
        sortWithDetails width height length mass <> Return r).
Proof.
  intros N. apply anyNonPositive_true_iff, nonPositive_throws in N.
  destruct (validation_failure_propagates _ _ _ _ _ N) as [S D].
  split; [ split; assumption | split ].
  - apply validation_failure_propagates.
  - rewrite S, D. split; intros; discriminate.
Qed.

Lemma nonPositive_rejected_witness :
  (lit 0 <=? lit 0)%num = true
  /\ sort (lit 0) (lit 10) (lit 10) (lit 5) = Throw InvalidRange
  /\ sortWithDetails (lit 10) (lit 10) (lit 10) (lit (-1)) = Throw InvalidRange.
Proof.
  split; [ reflexivity | split ].
  - assert (N : (lit 0 <=? lit 0)%num = true
                 \/ (lit 10 <=? lit 0)%num = true
                 \/ (lit 10 <=? lit 0)%num = true
                 \/ (lit 5 <=? lit 0)%num = true)
      by (left; reflexivity).
    destruct (nonPositive_rejected (lit 0) (lit 10) (lit 10) (lit 5) N)
      as ((OfSort & _) & _).
    exact OfSort.
  - assert (N : (lit 10 <=? lit 0)%num = true
                 \/ (lit 10 <=? lit 0)%num = true
                 \/ (lit 10 <=? lit 0)%num = true
                 \/ (lit (-1) <=? lit 0)%num = true)
      by (right; right; right; reflexivity).
    destruct (nonPositive_rejected (lit 10) (lit 10) (lit 10) (lit (-1)) N)
      as ((_ & OfDetails) & _).
    exact OfDetails.
Defined.

(** C3. The order of the two checks is observable.  Non-positivity is
    tested on all four inputs first: if one of them is at most 0 the
    error is InvalidRange, whatever else is not finite.  Finiteness is
    tested only when none of the four is at most 0, and then a value that
    is not finite gives NotFinite.  NaN is not at most 0 and positive
    Infinity is not either, so in a call that passes the first check they
    give NotFinite; negative Infinity is at most 0 and gives InvalidRange
    in every call.  The two errors are distinct, and [sort] and
    [sortWithDetails] fail as the validation does. *)
Theorem validation_order (width height length mass : number) :
  let fails (message : string) :=
    validateInputs width height length mass = Throw message
    /\ sort width height length mass = Throw message
    /\ sortWithDetails width height length mass = Throw message in
  let noneNonPositive :=
    (width <=? lit 0)%num = false /\ (height <=? lit 0)%num = false
    /\ (length <=? lit 0)%num = false /\ (mass <=? lit 0)%num = false in
  let some (x : number) :=
    width = x \/ height = x \/ length = x \/ mass = x in
  ((width <=? lit 0)%num = true \/ (height <=? lit 0)%num = true
   \/ (length <=? lit 0)%num = true \/ (mass <=? lit 0)%num = true ->
   fails InvalidRange)
  /\ (noneNonPositive ->
      isFinite width = false \/ isFinite height = false
      \/ isFinite length = false \/ isFinite mass = false ->
      fails NotFinite)
  /\ ((NaN <=? lit 0)%num = false /\ isFinite NaN = false
      /\ (noneNonPositive -> some NaN -> fails NotFinite))
  /\ ((Infinity <=? lit 0)%num = false /\ isFinite Infinity = false
      /\ (noneNonPositive -> some Infinity -> fails NotFinite))
  /\ ((NegInfinity <=? lit 0)%num = true /\ isFinite NegInfinity = false
      /\ (some NegInfinity -> fails InvalidRange))
  /\ InvalidRange <> NotFinite.
Proof.
  intros fails noneNonPositive some.
  assert (Range : anyNonPositive width height length mass = true ->
                  fails InvalidRange).
  { intros N. apply nonPositive_throws in N. split; [ exact N | ].
    now apply validation_failure_propagates. }
  assert (Finite : noneNonPositive ->
                   anyNonFinite width height length mass = true ->
                   fails NotFinite).
  { intros P F. apply anyNonPositive_false_iff in P.
    pose proof (nonFinite_throws _ _ _ _ P F) as E. split; [ exact E | ].
    now apply validation_failure_propagates. }
  split; [ | split; [ | split; [ | split; [ | split ] ] ] ].
  - intros N. now apply Range, anyNonPositive_true_iff.
  - intros P F. now apply Finite, anyNonFinite_true_iff.
  - split; [ reflexivity | split; [ reflexivity | ] ].
    intros P S. apply (Finite P).
    apply anyNonFinite_true_iff.
    destruct S as [-> | [-> | [-> | ->]]]; cbn; tauto.
  - split; [ reflexivity | split; [ reflexivity | ] ].
    intros P S. apply (Finite P).
    apply anyNonFinite_true_iff.
    destruct S as [-> | [-> | [-> | ->]]]; cbn; tauto.
  - split; [ reflexivity | split; [ reflexivity | ] ].
    intros S. apply Range.
    apply anyNonPositive_true_iff.
    destruct S as [-> | [-> | [-> | ->]]]; cbn; tauto.
  - discriminate.
Qed.

Lemma validation_order_witness :
  sort (lit (-1)) NaN (lit 10) (lit 5) = Throw InvalidRange
  /\ sort (lit 10) (lit 10) NaN (lit 5) = Throw NotFinite
  /\ sortWithDetails Infinity (lit 10) (lit 10) (lit 5) = Throw NotFinite
  /\ sortWithDetails (lit 10) NegInfinity (lit 10) (lit 5)
     = Throw InvalidRange.
Proof.
  split; [ | split; [ | split ] ].
  - destruct (validation_order (lit (-1)) NaN (lit 10) (lit 5))
      as (Range & _).
    apply Range. left. reflexivity.
  - destruct (validation_order (lit 10) (lit 10) NaN (lit 5))
      as (_ & _ & (_ & _ & OfNaN) & _).
    apply OfNaN; [ repeat split | right; right; left; reflexivity ].
  - destruct (validation_order Infinity (lit 10) (lit 10) (lit 5))
      as (_ & _ & _ & (_ & _ & OfInfinity) & _).
    apply OfInfinity; [ repeat split | left; reflexivity ].
  - destruct (validation_order (lit 10) NegInfinity (lit 10) (lit 5))
      as (_ & _ & _ & _ & (_ & _ & OfNegInfinity) & _).
    apply OfNegInfinity. right. left. reflexivity.
Defined.

(** ** The outcome of a call on arbitrary inputs *)

Section Outcome.

Variables width height length mass : number.

Lemma positive_finite_iff (x : number) :
  positive_finite x = true
  <-> (x <=? lit 0)%num = false /\ isFinite x = true.
Proof.
  unfold positive_finite. rewrite andb_true_iff.
  destruct x as [s | s | | s m e]; try destruct s; cbn; intuition congruence.
Qed.

Lemma valid_iff_passes :
  valid width height length mass = true
  <-> anyNonPositive width height length mass = false
      /\ anyNonFinite width height length mass = false.
Proof.
  unfold valid, anyNonPositive, anyNonFinite.
  rewrite !andb_true_iff, !positive_finite_iff, !orb_false_iff,
    !negb_false_iff.
  tauto.
Qed.

Lemma validateInputs_cases :
  (valid width height length mass = true
   /\ validateInputs width height length mass = Return tt)
  \/ (anyNonPositive width height length mass = true
      /\ validateInputs width height length mass = Throw InvalidRange)
  \/ (anyNonPositive width height length mass = false
      /\ anyNonFinite width height length mass = true
      /\ validateInputs width height length mass = Throw NotFinite).
Proof.
  rewrite validateInputs_eq, valid_iff_passes.
  destruct (anyNonPositive width height length mass),
    (anyNonFinite width height length mass); tauto.
Qed.

Lemma returns_valid (r : PackageResult.t) :
  sortWithDetails width height length mass = Return r ->
  valid width height length mass = true.
Proof.
  intros E.
  destruct validateInputs_cases as [[V _] | [[_ T] | (_ & _ & T)]];
    [ exact V | | ];
    apply validation_failure_propagates in T; destruct T as [_ T];
    rewrite T in E; discriminate.
Qed.

End Outcome.

(** ** The order of the dimensions *)

Section DimensionOrder.

(** The binary64 product is commutative; it is not associative. *)
Lemma mul_comm (x y : number) : (x * y)%num = (y * x)%num.
Proof.
  unfold mul.
  destruct x as [sx | sx | | sx mx ex], y as [sy | sy | | sy my ey];
    cbn; try reflexivity; try (now rewrite (xorb_comm sx sy)).
  now rewrite (xorb_comm sx sy), (Pos.mul_comm mx my), (Z.add_comm ex ey).
Qed.

Lemma existsb_Permutation {A : Type} (f : A -> bool) (xs ys : list A) :
  Permutation xs ys -> existsb f xs = existsb f ys.
Proof.
  induction 1 as [ | x xs ys _ IH | x y xs | xs ys zs _ IH1 _ IH2 ]; cbn.
  - reflexivity.
  - now rewrite IH.
  - now destruct (f x), (f y).
  - now rewrite IH1.
Qed.

Variables width height length mass : number.

Lemma dimensionExceeded_existsb :
  dimensionExceeded width height length =
  existsb (fun x => (x >=? lit 150)%num) [width; height; length].
Proof.
  unfold dimensionExceeded. cbn [existsb].
  now destruct (width >=? lit 150)%num, (height >=? lit 150)%num,
    (length >=? lit 150)%num.
Qed.

Lemma anyNonPositive_existsb :
  anyNonPositive width height length mass =
  existsb (fun x => (x <=? lit 0)%num) [width; height; length]
  || (mass <=? lit 0)%num.
Proof.
  unfold anyNonPositive. cbn [existsb].
  now destruct (width <=? lit 0)%num, (height <=? lit 0)%num,
    (length <=? lit 0)%num.
Qed.

Lemma anyNonFinite_existsb :
  anyNonFinite width height length mass =
  existsb (fun x => negb (isFinite x)) [width; height; length]
  || negb (isFinite mass).
Proof.
  unfold anyNonFinite. cbn [existsb].
  now destruct (isFinite width), (isFinite height), (isFinite length).
Qed.

Lemma isBulky_tests :
  isBulky width height length =
  volumeExceeded width height length
  || dimensionExceeded width height length.
Proof. reflexivity. Qed.

End DimensionOrder.

Lemma validateInputs_Permutation (w h l w' h' l' mass : number) :
  Permutation [w; h; l] [w'; h'; l'] ->
  validateInputs w' h' l' mass = validateInputs w h l mass.
Proof.
  intros P. rewrite !validateInputs_eq.
  rewrite !anyNonPositive_existsb, !anyNonFinite_existsb.
  now rewrite (existsb_Permutation _ _ _ P), (existsb_Permutation _ _ _ P).
Qed.

(** C9, as the source has it.  Exchanging width and height never changes
    [isBulky] nor [sort].  Under every permutation of the three
    dimensions the outcome of the validation and the test of the
    dimensions against 150 are unchanged.  [isBulky] is unchanged exactly
    when some dimension is at least 150 or the product taken in the new
    order compares with 1,000,000 as the product taken in the old order
    does; [sort] is unchanged exactly when the input is not valid (both
    calls then fail alike), or one of these two conditions holds. *)
Theorem sort_dimension_order (width height length mass : number) :
  (isBulky height width length = isBulky width height length
   /\ sort height width length mass = sort width height length mass)
  /\ (forall width' height' length' : number,
        Permutation [width; height; length] [width'; height'; length'] ->
        validateInputs width' height' length' mass
        = validateInputs width height length mass
        /\ dimensionExceeded width' height' length'
           = dimensionExceeded width height length
        /\ (isBulky width' height' length' = isBulky width height length
            <-> dimensionExceeded width height length = true
                \/ volumeExceeded width' height' length'
                   = volumeExceeded width height length)
        /\ (sort width' height' length' mass
            = sort width height length mass
            <-> valid width height length mass = false
                \/ dimensionExceeded width height length = true
                \/ volumeExceeded width' height' length'
                   = volumeExceeded width height length)).
Proof.
  assert (Swap : isBulky height width length = isBulky width height length).
  { unfold isBulky. rewrite (mul_comm height width).
    now destruct (width >=? lit 150)%num, (height >=? lit 150)%num,
      (length >=? lit 150)%num, (width * height * length >=? lit 1000000)%num. }
  split.
  - split; [ exact Swap | ].
    rewrite !sort_after_validation, Swap.
    now rewrite (validateInputs_Permutation width height length
                   height width length mass (perm_swap _ _ _)).
  - intros width' height' length' P.
    pose proof (validateInputs_Permutation _ _ _ _ _ _ mass P) as VI.
    assert (DE : dimensionExceeded width' height' length'
                 = dimensionExceeded width height length).
    { rewrite !dimensionExceeded_existsb.
      now rewrite (existsb_Permutation _ _ _ P). }
    assert (B : isBulky width' height' length' = isBulky width height length
                <-> dimensionExceeded width height length = true
                    \/ volumeExceeded width' height' length'
                       = volumeExceeded width height length).
    { rewrite !isBulky_tests, DE.
      destruct (volumeExceeded width' height' length'),
        (volumeExceeded width height length),
        (dimensionExceeded width height length); cbn;
        intuition congruence. }
    split; [ exact VI | split; [ exact DE | split; [ exact B | ] ] ].
    rewrite <- B, !sort_after_validation, VI.
    destruct (validateInputs_cases width height length mass)
      as [[V E] | [[N E] | (N & F & E)]]; rewrite E; cbn [bind].
    + rewrite V. split.
      * intros D. right. injection D as D. revert D.
        now destruct (isBulky width' height' length'),
          (isBulky width height length), (isHeavy mass).
      * intros [D | D]; [ discriminate D | now rewrite D ].
    + split; [ | reflexivity ]. intros _. left.
      destruct (valid width height length mass) eqn:V; [ | reflexivity ].
      apply valid_passes in V. destruct V as [V _]. congruence.
    + split; [ | reflexivity ]. intros _. left.
      destruct (valid width height length mass) eqn:V; [ | reflexivity ].
      apply valid_passes in V. destruct V as [_ V]. congruence.
Qed.

Lemma sort_dimension_order_witness :
  Permutation [lit 150; h1; l1] [lit 150; l1; h1]
  /\ volumeExceeded (lit 150) l1 h1 <> volumeExceeded (lit 150) h1 l1
  /\ sort (lit 150) l1 h1 (lit 5) = sort (lit 150) h1 l1 (lit 5).
Proof.
  assert (P : Permutation [lit 150; h1; l1] [lit 150; l1; h1])
    by apply (perm_skip _ (perm_swap _ _ _)).
  split; [ exact P | split; [ vm_compute; discriminate | ] ].
  destruct (sort_dimension_order (lit 150) h1 l1 (lit 5)) as (_ & Permuted).
  destruct (Permuted _ _ _ P) as (_ & _ & _ & Unchanged).
  apply Unchanged. right. left. vm_compute. reflexivity.
Defined.

(** C9, as stated, fails: with the dimensions [w0], [h0] and [l0], all
    three valid and below 150, the product in the order width, height,
    length rounds to 1,000,000 and the product in the order length,
    height, width rounds to the value just below it, so exchanging width
    and length turns a SPECIAL package into a STANDARD one. *)
Lemma sort_depends_on_dimension_order :
  is_double w0 && is_double h0 && is_double l0 = true
  /\ valid w0 h0 l0 (lit 5) = true
  /\ isBulky w0 h0 l0 = true
  /\ isBulky l0 h0 w0 = false
  /\ sort w0 h0 l0 (lit 5) = Return SPECIAL
  /\ sort l0 h0 w0 (lit 5) = Return STANDARD
  /\ ~ (forall width height length mass : number,
          sort width height length mass = sort height width length mass
          /\ sort width height length mass = sort length height width mass).
Proof.
  repeat split; try (vm_compute; reflexivity).
  intros Claim. destruct (Claim w0 h0 l0 (lit 5)) as [_ Exchange].
  vm_compute in Exchange. discriminate.
Qed.

(** ** The scenarios of the test suite *)

Section Scenarios.

(** 99.99, 149.99 and 19.99 as binary64 values. *)
Let d99_99 : number := S754_finite false 0x18ff5c28f5c28f (-46).
Let d149_99 : number := S754_finite false 0x12bfae147ae148 (-45).
Let d19_99 : number := S754_finite false 0x13fd70a3d70a3d (-48).

Example small_standard_package :
  sort (lit 10) (lit 10) (lit 10) (lit 5) = Return STANDARD.
Proof. reflexivity. Qed.

Example bulky_by_volume :
  sort (lit 100) (lit 100) (lit 100) (lit 15) = Return SPECIAL.
Proof. reflexivity. Qed.

Example bulky_by_dimension :
  sort (lit 150) (lit 10) (lit 10) (lit 15) = Return SPECIAL.
Proof. reflexivity. Qed.

Example heavy_package :
  sort (lit 50) (lit 50) (lit 50) (lit 20) = Return SPECIAL.
Proof. reflexivity. Qed.

Example rejected_package :
  sort (lit 200) (lit 100) (lit 100) (lit 25) = Return REJECTED.
Proof. reflexivity. Qed.

Example zero_width :
  sort (lit 0) (lit 10) (lit 10) (lit 5) = Throw InvalidRange.
Proof. reflexivity. Qed.

Example infinite_width :
  sort Infinity (lit 10) (lit 10) (lit 5) = Throw NotFinite.
Proof. reflexivity. Qed.

Example volume_just_below_threshold :
  sort d99_99 d99_99 d99_99 (lit 10) = Return STANDARD.
Proof. vm_compute. reflexivity. Qed.

Example dimension_just_below_threshold :
  sort d149_99 (lit 10) (lit 10) (lit 10) = Return STANDARD.
Proof. vm_compute. reflexivity. Qed.

Example mass_just_below_threshold :
  sort (lit 50) (lit 50) (lit 50) d19_99 = Return STANDARD.
Proof. vm_compute. reflexivity. Qed.

Example standard_details :
  sortWithDetails (lit 50) (lit 50) (lit 50) (lit 10) =
  Return (PackageResult.Build (lit 50) (lit 50) (lit 50) (lit 10)
            (lit 125000) STANDARD false false
            "Package meets standard criteria").
Proof. vm_compute. reflexivity. Qed.

End Scenarios.

(** ** Both entry points on arbitrary inputs *)

(** X1. Outcome of the two entry points on all inputs: each returns a
    value exactly when the four inputs are finite and strictly positive;
    otherwise both throw the same message, the range message exactly when
    some input is at most 0 and the finiteness message exactly when none
    is at most 0 and some input is NaN or infinite.  No other message is
    ever thrown. *)
Theorem outcome_characterised (width height length mass : number) :
  ((exists t, sort width height length mass = Return t)
   <-> valid width height length mass = true)
  /\ ((exists r, sortWithDetails width height length mass = Return r)
      <-> valid width height length mass = true)
  /\ (forall message : string,
        sort width height length mass = Throw message
        <-> sortWithDetails width height length mass = Throw message)
  /\ (sort width height length mass = Throw InvalidRange
      <-> anyNonPositive width height length mass = true)
  /\ (sort width height length mass = Throw NotFinite
      <-> anyNonPositive width height length mass = false
          /\ anyNonFinite width height length mass = true)
  /\ (forall message : string,
        sort width height length mass = Throw message ->
        message = InvalidRange \/ message = NotFinite).
Proof.
  assert (Distinct : InvalidRange <> NotFinite) by discriminate.
  destruct (validateInputs_cases width height length mass)
    as [[V _] | [[N T] | (N & F & T)]].
  - rewrite (sort_valid _ _ _ _ V), (sortWithDetails_valid _ _ _ _ V), V.
    destruct (valid_passes _ _ _ _ V) as [-> ->].
    repeat split; intros; try discriminate; try (eexists; reflexivity);
      try tauto.
    destruct H; discriminate.
  - destruct (validation_failure_propagates _ _ _ _ _ T) as [-> ->].
    rewrite N.
    assert (NV : valid width height length mass <> true).
    { rewrite valid_iff_passes, N. intros [? _]; discriminate. }
    repeat split; intros; try reflexivity; try tauto; try congruence;
      try (now destruct H); try (exfalso; tauto).
    left. congruence.
  - destruct (validation_failure_propagates _ _ _ _ _ T) as [-> ->].
    rewrite N, F.
    assert (NV : valid width height length mass <> true).
    { rewrite valid_iff_passes, F. intros [_ ?]; discriminate. }
    repeat split; intros; try reflexivity; try tauto; try congruence;
      try (now destruct H); try (exfalso; tauto).
    right. congruence.
Qed.

Lemma outcome_characterised_witness :
  sort (lit 10) NaN (lit 10) (lit 5) = Throw NotFinite
  /\ sortWithDetails (lit 10) NaN (lit 10) (lit 5) = Throw NotFinite.
Proof.
  destruct (outcome_characterised (lit 10) NaN (lit 10) (lit 5))
    as (_ & _ & Same & _ & Finiteness & _).
  assert (E : sort (lit 10) NaN (lit 10) (lit 5) = Throw NotFinite).
  { apply Finiteness. split; reflexivity. }
  split; [ exact E | ]. apply Same. exact E.
Defined.

(** X2. On all inputs, valid or not, taking the [type] field of what
    [sortWithDetails] returns is the same computation as [sort]: the same
    value when it returns, the same error when it throws. *)
Theorem type_of_details_is_sort (width height length mass : number) :
  (let* r := sortWithDetails width height length mass in
   Return (PackageResult.type r))
  = sort width height length mass.
Proof.
  destruct (validateInputs_cases width height length mass)
    as [[V _] | [[_ T] | (_ & _ & T)]].
  - now rewrite (sort_valid _ _ _ _ V), (sortWithDetails_valid _ _ _ _ V).
  - now destruct (validation_failure_propagates _ _ _ _ _ T) as [-> ->].
  - now destruct (validation_failure_propagates _ _ _ _ _ T) as [-> ->].
Qed.

(** X3. A record returned by [sortWithDetails] is reproduced by calling
    [sortWithDetails] on its own width, height, length and mass fields,
    and its type is the one the decision table gives for its own
    [isBulky] and [isHeavy] fields. *)
Theorem details_reproducible (width height length mass : number)
  (r : PackageResult.t) :
  sortWithDetails width height length mass = Return r ->
  sortWithDetails (PackageResult.width r) (PackageResult.height r)
    (PackageResult.length r) (PackageResult.mass r) = Return r
  /\ sort (PackageResult.width r) (PackageResult.height r)
       (PackageResult.length r) (PackageResult.mass r)
     = Return (PackageResult.type r)
  /\ PackageResult.type r
     = decision (PackageResult.isBulky r) (PackageResult.isHeavy r).
Proof.
  intros E. pose proof (returns_valid _ _ _ _ _ E) as V.
  pose proof E as E'. rewrite (sortWithDetails_valid _ _ _ _ V) in E'.
  injection E' as <-. cbn. rewrite (sort_valid _ _ _ _ V).
  repeat split. exact E.
Qed.

Lemma details_reproducible_witness :
  exists r : PackageResult.t,
    sortWithDetails (lit 200) (lit 100) (lit 100) (lit 30) = Return r
    /\ sortWithDetails (PackageResult.width r) (PackageResult.height r)
         (PackageResult.length r) (PackageResult.mass r) = Return r
    /\ PackageResult.type r = REJECTED.
Proof.
  eexists. split; [ vm_compute; reflexivity | ].
  split; [ | reflexivity ].
  eapply (details_reproducible (lit 200) (lit 100) (lit 100) (lit 30)).
  vm_compute. reflexivity.
Defined.

(** ** What the reason tells *)

Lemma topic_text_injective (a b : topic) :
  topic_text a = topic_text b -> a = b.
Proof. destruct a, b; cbn; intros E; try reflexivity; discriminate. Qed.

(** X4. The reason determines the classification: two calls of
    [sortWithDetails] that return the same reason return the same type,
    the same [isBulky] flag and the same [isHeavy] flag, whatever the
    inputs were. *)
Theorem reason_determines_flags
  (w h l m w' h' l' m' : number) (r r' : PackageResult.t) :
  sortWithDetails w h l m = Return r ->
  sortWithDetails w' h' l' m' = Return r' ->
  PackageResult.reason r = PackageResult.reason r' ->
  PackageResult.type r = PackageResult.type r'
  /\ PackageResult.isBulky r = PackageResult.isBulky r'
  /\ PackageResult.isHeavy r = PackageResult.isHeavy r'.
Proof.
  intros E E'.
  pose proof (returns_valid _ _ _ _ _ E) as V.
  pose proof (returns_valid _ _ _ _ _ E') as V'.
  rewrite (sortWithDetails_valid _ _ _ _ V) in E.
  rewrite (sortWithDetails_valid _ _ _ _ V') in E'.
  injection E as <-. injection E' as <-. cbn.
  intros T. apply topic_text_injective in T. revert T.
  unfold topic_spec. rewrite !isBulky_tests.
  destruct (volumeExceeded w h l), (dimensionExceeded w h l), (isHeavy m),
    (volumeExceeded w' h' l'), (dimensionExceeded w' h' l'), (isHeavy m');
    cbn; intros T; try discriminate; repeat split.
Qed.

Lemma reason_determines_flags_witness :
  exists r r' : PackageResult.t,
    sortWithDetails (lit 200) (lit 10) (lit 10) (lit 10) = Return r
    /\ sortWithDetails (lit 10) (lit 150) (lit 10) (lit 5) = Return r'
    /\ PackageResult.reason r = PackageResult.reason r'
    /\ PackageResult.type r = PackageResult.type r'.
Proof.
  eexists. eexists.
  split; [ vm_compute; reflexivity | ].
  split; [ vm_compute; reflexivity | ].
  split; [ reflexivity | ].
  eapply (reason_determines_flags
            (lit 200) (lit 10) (lit 10) (lit 10)
            (lit 10) (lit 150) (lit 10) (lit 5));
    vm_compute; reflexivity.
Defined.

(** ** Rounding never changes the sign *)

Section Rounding.

Variables prec emax : Z.

Lemma shr_1_nonneg (mrs : shr_record) :
  0 <= shr_m mrs -> 0 <= shr_m (shr_1 mrs).
Proof.
  destruct mrs as [m r s]. cbn.
  destruct m as [ | [p | p | ] | p]; cbn; lia.
Qed.

Lemma iter_pos_invariant {A : Type} (P : A -> Prop) (f : A -> A) :
  (forall a, P a -> P (f a)) ->
  forall (n : positive) (a : A), P a -> P (iter_pos f n a).
Proof.
  intros Step. induction n as [n IH | n IH | ]; cbn; intros a Pa; auto.
Qed.

Lemma shr_nonneg (mrs : shr_record) (e n : Z) :
  0 <= shr_m mrs -> 0 <= shr_m (fst (shr mrs e n)).
Proof.
  intros M. destruct n as [ | p | p]; cbn; try exact M.
  now apply (iter_pos_invariant (fun x => 0 <= shr_m x) shr_1 shr_1_nonneg).
Qed.

Lemma shr_fexp_nonneg (m e : Z) (l : location) :
  0 <= m -> 0 <= shr_m (fst (shr_fexp prec emax m e l)).
Proof.
  intros M. unfold shr_fexp. apply shr_nonneg.
  destruct l as [ | [ | | ]]; exact M.
Qed.

Lemma round_nearest_even_nonneg (m : Z) (l : location) :
  0 <= m -> 0 <= round_nearest_even m l.
Proof.
  intros M. destruct l as [ | [ | | ]]; cbn; try exact M; try lia.
  destruct (Z.even m); lia.
Qed.

Lemma binary_round_aux_sign (sx : bool) (mx ex : Z) (lx : location) :
  0 <= mx ->
  (exists m e, binary_round_aux prec emax sx mx ex lx = S754_finite sx m e)
  \/ binary_round_aux prec emax sx mx ex lx = S754_zero sx
  \/ binary_round_aux prec emax sx mx ex lx = S754_infinity sx.
Proof.
  intros M. unfold binary_round_aux.
  pose proof (shr_fexp_nonneg mx ex lx M) as M1.
  destruct (shr_fexp prec emax mx ex lx) as [mrs' e']. cbn [fst] in M1.
  pose proof (shr_fexp_nonneg
                (round_nearest_even (shr_m mrs') (loc_of_shr_record mrs'))
                e' loc_Exact (round_nearest_even_nonneg _ _ M1)) as M2.
  destruct (shr_fexp prec emax _ e' loc_Exact) as [mrs'' e''].
  cbn [fst] in M2.
  destruct (shr_m mrs'') as [ | m | m]; [ tauto | | lia ].
  destruct (e'' <=? emax - prec); eauto.
Qed.

End Rounding.

(** ** The order on binary64 values is transitive *)

Ltac compare_cases :=
  repeat match goal with
    | H : context [Pos.compare_cont Eq ?a ?b] |- _ =>
        change (Pos.compare_cont Eq a b) with (Pos.compare a b) in H
    | |- context [Pos.compare_cont Eq ?a ?b] =>
        change (Pos.compare_cont Eq a b) with (Pos.compare a b)
    end;
  repeat match goal with
    | H : context [Z.compare ?a ?b] |- _ =>
        destruct (Z.compare_spec a b); cbn in H; try discriminate H
    | H : context [Pos.compare ?a ?b] |- _ =>
        destruct (Pos.compare_spec a b); cbn in H; try discriminate H
    | |- context [Z.compare ?a ?b] =>
        destruct (Z.compare_spec a b); cbn
    | |- context [Pos.compare ?a ?b] =>
        destruct (Pos.compare_spec a b); cbn
    end;
  subst; try reflexivity; try lia.

Lemma SFleb_trans (a b c : spec_float) :
  SFleb a b = true -> SFleb b c = true -> SFleb a c = true.
Proof.
  unfold SFleb.
  destruct a as [sa | sa | | sa ma ea], b as [sb | sb | | sb mb eb],
    c as [sc | sc | | sc mc ec];
    try destruct sa; try destruct sb; try destruct sc; cbn;
    intros H1 H2; try discriminate; try reflexivity;
    compare_cases.
Qed.

Lemma ge_trans (a b c : number) :
  (a >=? b)%num = true -> (b >=? c)%num = true -> (a >=? c)%num = true.
Proof. unfold ge. intros AB BC. exact (SFleb_trans c b a BC AB). Qed.

(** ** The volume of a valid package *)

Lemma positive_finite_inv (x : number) :
  positive_finite x = true -> exists m e, x = S754_finite false m e.
Proof.
  unfold positive_finite.
  destruct x as [s | s | | s m e]; try destruct s; cbn;
    try discriminate; eauto.
Qed.

Lemma mul_nonNegative_finite (x : number) (m : positive) (e : Z) :
  nonNegative x = true ->
  nonNegative (x * S754_finite false m e)%num = true.
Proof.
  destruct x as [s | s | | s mx ex]; try destruct s; cbn;
    try discriminate; try reflexivity.
  intros _.
  destruct (binary_round_aux_sign prec emax false
              (Z.pos (mx * m)) (ex + e) loc_Exact)
    as [(m' & e' & ->) | [-> | ->]]; [ lia | reflexivity .. ].
Qed.

Lemma volume_nonNegative (width height length mass : number) :
  valid width height length mass = true ->
  nonNegative (width * height * length)%num = true.
Proof.
  unfold valid. rewrite !andb_true_iff. intros [[[W H] L] _].
  apply positive_finite_inv in W, H, L.
  destruct W as (mw & ew & ->), H as (mh & eh & ->), L as (ml & el & ->).
  now apply mul_nonNegative_finite, mul_nonNegative_finite.
Qed.

(** X5. The volume of a returned record is never NaN and never below
    zero, although the product may round to 0 or overflow.  When it
    overflows it is positive Infinity, the package is then bulky and is
    not classified STANDARD. *)
Theorem volume_sign_and_overflow (width height length mass : number)
  (r : PackageResult.t) :
  sortWithDetails width height length mass = Return r ->
  let volume := PackageResult.volume r in
  volume <> NaN
  /\ (volume >=? lit 0)%num = true
  /\ (isFinite volume = false ->
      volume = Infinity
      /\ PackageResult.isBulky r = true
      /\ PackageResult.type r <> STANDARD).
Proof.
  intros E. pose proof (returns_valid _ _ _ _ _ E) as V.
  pose proof (volume_nonNegative _ _ _ _ V) as N.
  rewrite (sortWithDetails_valid _ _ _ _ V) in E. injection E as <-.
  cbn [PackageResult.volume PackageResult.isBulky PackageResult.type].
  unfold isBulky.
  destruct (width * height * length)%num as [s | s | | s mv ev];
    try destruct s; cbn in N; try discriminate N;
    repeat split; try discriminate; try reflexivity;
    cbn; intros; try discriminate.
  destruct (isHeavy mass); discriminate.
Qed.

Lemma volume_sign_and_overflow_witness :
  exists r : PackageResult.t,
    sortWithDetails (lit (10 ^ 200)) (lit (10 ^ 200)) (lit 2) (lit 1)
    = Return r
    /\ PackageResult.volume r = Infinity
    /\ PackageResult.isBulky r = true.
Proof.
  eexists. split; [ vm_compute; reflexivity | ].
  assert (E : sortWithDetails (lit (10 ^ 200)) (lit (10 ^ 200)) (lit 2)
                (lit 1)
              = Return (PackageResult.Build (lit (10 ^ 200))
                          (lit (10 ^ 200)) (lit 2) (lit 1) Infinity
                          SPECIAL true false
                          "Package is bulky (volume ≥ 1M cm³ and dimension ≥ 150 cm)"))
    by (vm_compute; reflexivity).
  destruct (volume_sign_and_overflow _ _ _ _ _ E) as (_ & _ & Overflow).
  destruct (Overflow eq_refl) as (IsInfinity & Bulky & _).
  split; [ exact IsInfinity | exact Bulky ].
Defined.

(** ** Monotonicity *)

Lemma isHeavy_monotone (mass mass' : number) :
  (mass <=? mass')%num = true -> isHeavy mass = true -> isHeavy mass' = true.
Proof.
  unfold isHeavy. intros L H. apply (ge_trans mass' mass (lit 20)); assumption.
Qed.

Lemma rank_decision_heavy (bulky heavy heavy' : bool) :
  (heavy = true -> heavy' = true) ->
  (rank (decision bulky heavy) <= rank (decision bulky heavy'))%nat.
Proof.
  destruct bulky, heavy, heavy'; cbn; intros I; try lia;
    specialize (I eq_refl); discriminate.
Qed.

(** X6. A heavier package is never classified lower: for fixed
    dimensions and two valid masses with mass <= mass', the class for
    mass' is at least as severe as the class for mass, in the order
    STANDARD, SPECIAL, REJECTED. *)
Theorem sort_monotone_in_mass (width height length mass mass' : number) :
  valid width height length mass = true ->
  valid width height length mass' = true ->
  (mass <=? mass')%num = true ->
  exists t t' : PackageType,
    sort width height length mass = Return t
    /\ sort width height length mass' = Return t'
    /\ (rank t <= rank t')%nat.
Proof.
  intros V V' L. exists (decision (isBulky width height length) (isHeavy mass)).
  exists (decision (isBulky width height length) (isHeavy mass')).
  split; [ exact (sort_valid _ _ _ _ V) | ].
  split; [ exact (sort_valid _ _ _ _ V') | ].
  apply rank_decision_heavy. now apply isHeavy_monotone.
Qed.

Lemma sort_monotone_in_mass_witness :
  exists t t' : PackageType,
    sort (lit 150) (lit 10) (lit 10) (lit 19) = Return t
    /\ sort (lit 150) (lit 10) (lit 10) (lit 20) = Return t'
    /\ (rank t <= rank t')%nat.
Proof.
  apply (sort_monotone_in_mass (lit 150) (lit 10) (lit 10) (lit 19) (lit 20));
    reflexivity.
Defined.

(** X7. A package with a side of at least 150 stays bulky when its sides
    grow: if one of width, height and length is at least 150 and each
    side of a second package is at least the corresponding side of the
    first, the second package is bulky, whatever its computed volume. *)
Theorem large_dimension_monotone (w h l w' h' l' : number) :
  (w >=? lit 150)%num = true \/ (h >=? lit 150)%num = true
  \/ (l >=? lit 150)%num = true ->
  (w <=? w')%num = true -> (h <=? h')%num = true -> (l <=? l')%num = true ->
  isBulky w h l = true /\ isBulky w' h' l' = true.
Proof.
  intros D W H L. rewrite !isBulky_tests. unfold dimensionExceeded.
  rewrite !orb_true_iff. split; [ tauto | ]. right.
  destruct D as [D | [D | D]].
  - left. left. exact (ge_trans w' w (lit 150) W D).
  - left. right. exact (ge_trans h' h (lit 150) H D).
  - right. exact (ge_trans l' l (lit 150) L D).
Qed.

Lemma large_dimension_monotone_witness :
  isBulky (lit 10) (lit 151) (lit 12) = true.
Proof.
  apply (large_dimension_monotone (lit 10) (lit 150) (lit 10)
           (lit 10) (lit 151) (lit 12));
    [ right; left; reflexivity | reflexivity .. ].
Defined.

(** ** The catalogue and the form *)

Section Catalogue.

Lemma testCases_names_distinct : NoDup (map TestCase.name testCases).
Proof.
  repeat constructor; cbn; intros H;
    repeat (destruct H as [H | H]; [ discriminate H | ]); exact H.
Qed.

Lemma testCases_found :
  Forall (fun tc => find (caseNamed (TestCase.name tc)) testCases = Some tc)
    testCases.
Proof. repeat constructor. Qed.

Lemma testCases_valid : Forall (fun tc => caseValid tc = true) testCases.
Proof. repeat constructor. Qed.

Lemma find_caseNamed_None (caseName : string) :
  ~ In caseName (map TestCase.name testCases) ->
  find (caseNamed caseName) testCases = None.
Proof.
  intros Out.
  destruct (find (caseNamed caseName) testCases) as [tc | ] eqn:F;
    [ | reflexivity ].
  apply find_some in F. destruct F as [I N].
  apply String.eqb_eq in N. subst caseName.
  exfalso. apply Out. now apply in_map.
Qed.

End Catalogue.

(** X8. The names of the catalogue are pairwise distinct, so looking a
    catalogue entry up by its name, as [loadTestCase] does, finds that
    very entry; and every entry is a valid input, on which
    [sortWithDetails] returns a record. *)
Theorem catalogue_lookup (tc : TestCase.t) :
  In tc testCases ->
  find (fun c => String.eqb (TestCase.name c) (TestCase.name tc)) testCases
  = Some tc
  /\ (forall c, In c testCases -> TestCase.name c = TestCase.name tc -> c = tc)
  /\ valid (TestCase.width tc) (TestCase.height tc) (TestCase.length tc)
       (TestCase.mass tc) = true
  /\ exists r : PackageResult.t,
      sortWithDetails (TestCase.width tc) (TestCase.height tc)
        (TestCase.length tc) (TestCase.mass tc) = Return r.
Proof.
  intros I.
  pose proof (proj1 (Forall_forall _ _) testCases_found tc I) as F.
  pose proof (proj1 (Forall_forall _ _) testCases_valid tc I) as V.
  split; [ exact F | split; [ | split; [ exact V | ] ] ].
  - intros c Ic N.
    pose proof (proj1 (Forall_forall _ _) testCases_found c Ic) as Fc.
    cbv beta in F, Fc. rewrite N in Fc. congruence.
  - eexists. exact (sortWithDetails_valid _ _ _ _ V).
Qed.

Lemma catalogue_lookup_witness :
  find (fun c => String.eqb (TestCase.name c) "Heavy Package") testCases
  = Some (TestCase.Build "Heavy Package" (lit 50) (lit 50) (lit 50) (lit 25)).
Proof.
  apply (catalogue_lookup
           (TestCase.Build "Heavy Package" (lit 50) (lit 50) (lit 50)
              (lit 25))).
  cbn. tauto.
Defined.

(** X9. [loadTestCase] with a name that is not in the catalogue leaves
    the whole form as it was, selection included.  With the name of a
    catalogue entry it overwrites the four inputs with that entry and
    selects it, whatever the form held before; so loading twice is the
    same as loading once and only the last loaded entry shows. *)
Theorem loadTestCase_effect (caseName : string) (s : App.State) :
  (~ In caseName (map TestCase.name testCases) ->
   App.loadTestCase caseName s = s)
  /\ (forall tc : TestCase.t,
        In tc testCases ->
        App.loadTestCase (TestCase.name tc) s
        = App.BuildState (TestCase.width tc) (TestCase.height tc)
            (TestCase.length tc) (TestCase.mass tc) (TestCase.name tc)
        /\ App.loadTestCase (TestCase.name tc)
             (App.loadTestCase caseName s)
           = App.loadTestCase (TestCase.name tc) s).
Proof.
  split.
  - intros Out. unfold App.loadTestCase.
    fold (caseNamed caseName).
    now rewrite (find_caseNamed_None _ Out).
  - intros tc I.
    pose proof (proj1 (Forall_forall _ _) testCases_found tc I) as F.
    unfold App.loadTestCase at 1 2 4. fold (caseNamed (TestCase.name tc)).
    rewrite F. split; reflexivity.
Qed.

Lemma loadTestCase_effect_witness :
  App.loadTestCase "No such package" App.initial = App.initial
  /\ App.loadTestCase "Rejected Package"
       (App.loadTestCase "Heavy Package" App.initial)
     = App.BuildState (lit 200) (lit 100) (lit 100) (lit 30)
         "Rejected Package".
Proof.
  split.
  - apply (loadTestCase_effect "No such package" App.initial).
    cbn. intros H.
    repeat (destruct H as [H | H]; [ discriminate H | ]). exact H.
  - destruct (loadTestCase_effect "Heavy Package" App.initial)
      as [_ Known].
    destruct (Known (TestCase.Build "Rejected Package" (lit 200) (lit 100)
                       (lit 100) (lit 30))) as [Loaded Last].
    + cbn. tauto.
    + cbn [TestCase.name] in Last. rewrite Last. exact Loaded.
Defined.

Section Form.

Lemma result_valid (s : App.State) :
  valid (App.width s) (App.height s) (App.length s) (App.mass s) = true ->
  exists d : PackageResult.t,
    sortWithDetails (App.width s) (App.height s) (App.length s) (App.mass s)
    = Return d
    /\ App.result s = App.BuildResult (Some d) ""
    /\ App.shown (App.result s) = App.ResultCard d.
Proof.
  intros V. eexists. unfold App.result.
  rewrite (sortWithDetails_valid _ _ _ _ V). repeat split.
Qed.

Lemma pristine_valid (s : App.State) :
  pristine s ->
  valid (App.width s) (App.height s) (App.length s) (App.mass s) = true.
Proof.
  intros [-> | (tc & I & ->)]; [ reflexivity | ].
  exact (proj1 (Forall_forall _ _) testCases_valid tc I).
Qed.

Lemma press_pristine (b : App.button) (s : App.State) :
  pristine s -> pristine (App.press b s).
Proof.
  intros P. destruct b as [caseName | ]; cbn [App.press].
  - unfold App.loadTestCase. fold (caseNamed caseName).
    destruct (find (caseNamed caseName) testCases) as [tc | ] eqn:F;
      [ | exact P ].
    apply find_some in F. destruct F as [I N].
    apply String.eqb_eq in N. subst caseName.
    right. exists tc. split; [ exact I | reflexivity ].
  - left. reflexivity.
Qed.

Lemma presses_pristine (bs : list App.button) (s : App.State) :
  pristine s -> pristine (App.presses bs s).
Proof.
  revert s. unfold App.presses.
  induction bs as [ | b bs IH]; intros s P; cbn [fold_left].
  - exact P.
  - apply IH, press_pristine, P.
Qed.

End Form.

(** X10. The results section always shows exactly one card.  When the
    four inputs of the form are valid it is the result card with the
    record [sortWithDetails] returns and the error is empty; otherwise
    there is no record and it is the error card, whose message is the
    one [sortWithDetails] throws, one of the two validation messages. *)
Theorem one_card_shown (s : App.State) :
  let call :=
    sortWithDetails (App.width s) (App.height s) (App.length s)
      (App.mass s) in
  let r := App.result s in
  App.shown r <> App.NoCard
  /\ (valid (App.width s) (App.height s) (App.length s) (App.mass s) = true ->
      exists d : PackageResult.t,
        call = Return d /\ r = App.BuildResult (Some d) ""
        /\ App.shown r = App.ResultCard d)
  /\ (valid (App.width s) (App.height s) (App.length s) (App.mass s) = false ->
      App.data r = None
      /\ call = Throw (App.error r)
      /\ App.shown r = App.ErrorCard (App.error r)
      /\ (App.error r = InvalidRange \/ App.error r = NotFinite)).
Proof.
  intros call r. subst call r.
  destruct (validateInputs_cases (App.width s) (App.height s) (App.length s)
              (App.mass s)) as [[V _] | [[_ T] | (_ & _ & T)]].
  - destruct (result_valid s V) as (d & Call & Res & Card).
    rewrite V, Card. split; [ discriminate | ].
    split; [ eauto | discriminate ].
  - apply validation_failure_propagates in T. destruct T as [S T].
    assert (NV : valid (App.width s) (App.height s) (App.length s)
                   (App.mass s) <> true).
    { intros V. rewrite (sort_valid _ _ _ _ V) in S. discriminate. }
    unfold App.result. rewrite T. cbn.
    split; [ discriminate | ]. split; [ intros V; contradiction | tauto ].
  - apply validation_failure_propagates in T. destruct T as [S T].
    assert (NV : valid (App.width s) (App.height s) (App.length s)
                   (App.mass s) <> true).
    { intros V. rewrite (sort_valid _ _ _ _ V) in S. discriminate. }
    unfold App.result. rewrite T. cbn.
    split; [ discriminate | ]. split; [ intros V; contradiction | tauto ].
Qed.

Lemma one_card_shown_witness :
  App.shown
    (App.result (App.BuildState (lit 0) (lit 50) (lit 50) (lit 10) ""))
  = App.ErrorCard InvalidRange.
Proof.
  destruct (one_card_shown
              (App.BuildState (lit 0) (lit 50) (lit 50) (lit 10) ""))
    as (_ & _ & Invalid).
  destruct (Invalid eq_refl) as (_ & _ & Card & _).
  exact Card.
Defined.

(** X11. Starting from the defaults, whatever example buttons and reset
    button are pressed, in any order and with any names, the form holds
    either the defaults with nothing selected or exactly the inputs of
    the selected catalogue entry; the error stays empty and the result
    card is shown. *)
Theorem buttons_keep_form_pristine (bs : list App.button) :
  let s := App.presses bs App.initial in
  (s = App.initial
   \/ exists tc : TestCase.t,
       In tc testCases
       /\ App.selectedTestCase s = TestCase.name tc
       /\ App.width s = TestCase.width tc
       /\ App.height s = TestCase.height tc
       /\ App.length s = TestCase.length tc
       /\ App.mass s = TestCase.mass tc)
  /\ App.error (App.result s) = EmptyString
  /\ exists d : PackageResult.t,
      App.shown (App.result s) = App.ResultCard d.
Proof.
  intros s.
  assert (P : pristine s)
    by (apply presses_pristine; left; reflexivity).
  split.
  - destruct P as [-> | (tc & I & ->)]; [ left; reflexivity | ].
    right. exists tc. cbn. repeat split. exact I.
  - destruct (result_valid s (pristine_valid s P)) as (d & _ & Res & Card).
    rewrite Res. split; [ reflexivity | ]. exists d. now rewrite <- Res.
Qed.

(** ** Whole-number inputs are handled exactly *)

Section WholeNumbers.

Lemma digits2_pos_size (p : positive) : digits2_pos p = Pos.size p.
Proof. induction p as [p IH | p IH | ]; cbn; now rewrite ?IH. Qed.

Lemma size_bounds (p : positive) :
  2 ^ (Z.pos (Pos.size p) - 1) <= Z.pos p < 2 ^ Z.pos (Pos.size p).
Proof.
  pose proof (Pos.size_gt p) as G. pose proof (Pos.size_le p) as L.
  apply Pos2Z.pos_lt_pos in G. apply Pos2Z.pos_le_pos in L.
  rewrite Pos2Z.inj_pow in G, L.
  change (Z.pos p~0) with (2 * Z.pos p) in L.
  assert (E : 2 ^ Z.pos (Pos.size p) = 2 * 2 ^ (Z.pos (Pos.size p) - 1)).
  { rewrite <- Z.pow_succ_r by lia. f_equal. lia. }
  lia.
Qed.

Lemma size_unique (p : positive) (d : Z) :
  2 ^ (d - 1) <= Z.pos p < 2 ^ d -> Z.pos (Pos.size p) = d.
Proof.
  intros [L U]. destruct (size_bounds p) as [L' U'].
  assert (0 < d).
  { destruct (Z.lt_ge_cases 0 d) as [? | N]; [ assumption | ].
    assert (2 ^ d <= 2 ^ 0) by (apply Z.pow_le_mono_r; lia).
    change (2 ^ 0) with 1 in *. lia. }
  assert (d - 1 < Z.pos (Pos.size p)).
  { apply (Z.pow_lt_mono_r_iff 2); lia. }
  assert (Z.pos (Pos.size p) - 1 < d).
  { apply (Z.pow_lt_mono_r_iff 2); lia. }
  lia.
Qed.

Lemma iter_xO_spec (p n : positive) :
  Z.pos (Pos.iter xO p n) = Z.pos p * 2 ^ Z.pos n.
Proof.
  induction n as [ | n IH] using Pos.peano_ind.
  - cbn. lia.
  - rewrite Pos.iter_succ, Pos2Z.inj_xO, IH, Pos2Z.inj_succ.
    rewrite Z.pow_succ_r by lia. lia.
Qed.

Lemma shiftl_spec (p : positive) (n : N) :
  Z.pos (Pos.shiftl p n) = Z.pos p * 2 ^ Z.of_N n.
Proof.
  destruct n as [ | n]; cbn [Pos.shiftl Z.of_N].
  - change (2 ^ 0) with 1. lia.
  - apply iter_xO_spec.
Qed.

(** Dropping [n] zero bits loses nothing. *)
Lemma shr_exact (n q : positive) :
  iter_pos shr_1 n (Build_shr_record (Z.pos (Pos.iter xO q n)) false false)
  = Build_shr_record (Z.pos q) false false.
Proof.
  revert q. induction n as [n IH | n IH | ]; intros q; cbn.
  - now rewrite !IH.
  - now rewrite !IH.
  - reflexivity.
Qed.

(** A mantissa of 53 bits followed by [n] zero bits rounds to itself. *)
Lemma round_exact (s : bool) (q : positive) (M : positive) (e n : Z) :
  Z.pos (Pos.size q) = 53 ->
  0 <= n ->
  Z.pos M = Z.pos q * 2 ^ n ->
  -1074 <= e + n <= 971 ->
  binary_round_aux prec emax s (Z.pos M) e loc_Exact
  = S754_finite s q (e + n).
Proof.
  intros Sq Nn EM Re.
  assert (SM : Z.pos (Pos.size M) = 53 + n).
  { apply size_unique. rewrite EM. destruct (size_bounds q) as [L U].
    rewrite Sq in L, U.
    replace (53 + n - 1) with (52 + n) by lia.
    rewrite !Z.pow_add_r by lia. cbn [Z.sub] in L.
    assert (0 < 2 ^ n) by (apply Z.pow_pos_nonneg; lia).
    split; [ apply Z.mul_le_mono_nonneg_r | apply Z.mul_lt_mono_pos_r ];
      lia. }
  unfold binary_round_aux, shr_fexp at 1, fexp, emin, prec, emax.
  cbn [Zdigits2 shr_record_of_loc]. rewrite digits2_pos_size, SM.
  replace (Z.max (53 + n + e - 53) (3 - 1024 - 53) - e) with n by lia.
  assert (Shift : shr (Build_shr_record (Z.pos M) false false) e n
                  = (Build_shr_record (Z.pos q) false false, e + n)).
  { destruct n as [ | pn | pn]; [ | | lia ].
    - change (2 ^ 0) with 1 in EM.
      assert (M = q) as -> by (apply Pos2Z.inj; lia).
      cbn. now rewrite Z.add_0_r.
    - cbn [shr]. f_equal.
      assert (M = Pos.iter xO q pn) as ->.
      { apply Pos2Z.inj. rewrite iter_xO_spec. exact EM. }
      apply shr_exact. }
  rewrite Shift. cbn [shr_m loc_of_shr_record round_nearest_even].
  unfold shr_fexp, fexp, emin. cbn [Zdigits2 shr_record_of_loc].
  rewrite digits2_pos_size, Sq.
  replace (Z.max (53 + (e + n) - 53) (3 - 1024 - 53) - (e + n)) with 0 by lia.
  cbn [shr shr_m].
  replace (e + n <=? 1024 - 53) with true by (symmetry; apply Z.leb_le; lia).
  reflexivity.
Qed.

Lemma size_mul_lower (a b : positive) :
  Z.pos (Pos.size a) + Z.pos (Pos.size b) - 1 <= Z.pos (Pos.size (a * b)).
Proof.
  destruct (size_bounds a) as [La _], (size_bounds b) as [Lb _],
    (size_bounds (a * b)) as [_ U].
  assert (P : 2 ^ (Z.pos (Pos.size a) - 1 + (Z.pos (Pos.size b) - 1))
              <= Z.pos (a * b)).
  { rewrite Z.pow_add_r, Pos2Z.inj_mul by lia.
    apply Z.mul_le_mono_nonneg; try assumption; apply Z.pow_nonneg; lia. }
  assert (Z.pos (Pos.size a) - 1 + (Z.pos (Pos.size b) - 1)
          < Z.pos (Pos.size (a * b))).
  { apply (Z.pow_lt_mono_r_iff 2); lia. }
  lia.
Qed.

Lemma size_monotone (a b : positive) :
  Z.pos a <= Z.pos b -> Z.pos (Pos.size a) <= Z.pos (Pos.size b).
Proof.
  intros L. destruct (size_bounds a) as [La _], (size_bounds b) as [_ Ub].
  assert (Z.pos (Pos.size a) - 1 < Z.pos (Pos.size b)).
  { apply (Z.pow_lt_mono_r_iff 2); lia. }
  lia.
Qed.

Lemma canon_mantissa (p : positive) :
  Z.pos (Pos.size p) <= 53 ->
  let q := Pos.shiftl p (Z.to_N (53 - Z.pos (Pos.size p))) in
  Z.pos q = Z.pos p * 2 ^ (53 - Z.pos (Pos.size p))
  /\ Z.pos (Pos.size q) = 53.
Proof.
  intros S q. subst q.
  assert (E : Z.pos (Pos.shiftl p (Z.to_N (53 - Z.pos (Pos.size p))))
              = Z.pos p * 2 ^ (53 - Z.pos (Pos.size p))).
  { rewrite shiftl_spec, Z2N.id by lia. reflexivity. }
  split; [ exact E | ].
  apply size_unique. rewrite E. destruct (size_bounds p) as [L U].
  set (d := Z.pos (Pos.size p)) in *.
  assert (0 < 2 ^ (53 - d)) by (apply Z.pow_pos_nonneg; lia).
  replace (2 ^ (53 - 1)) with (2 ^ (d - 1) * 2 ^ (53 - d))
    by (rewrite <- Z.pow_add_r by lia; f_equal; lia).
  replace (2 ^ 53) with (2 ^ d * 2 ^ (53 - d))
    by (rewrite <- Z.pow_add_r by lia; f_equal; lia).
  split; [ apply Z.mul_le_mono_nonneg_r | apply Z.mul_lt_mono_pos_r ]; lia.
Qed.

Lemma lit_canon (p : positive) :
  Z.pos (Pos.size p) <= 53 -> lit (Z.pos p) = canon p.
Proof.
  intros S. destruct (canon_mantissa p S) as [E Sq].
  unfold lit, binary_normalize, binary_round, canon, fexp, emin, prec, emax.
  rewrite digits2_pos_size.
  replace (Z.max (Z.pos (Pos.size p) + 0 - 53) (3 - 1024 - 53))
    with (Z.pos (Pos.size p) - 53) by lia.
  set (q := Pos.shiftl p (Z.to_N (53 - Z.pos (Pos.size p)))) in *.
  assert (A : shl_align p 0 (Z.pos (Pos.size p) - 53)
              = (q, Z.pos (Pos.size p) - 53)).
  { unfold shl_align, q. rewrite Z.sub_0_r.
    destruct (Z.pos (Pos.size p) - 53) as [ | d | d] eqn:D; [ | lia | ].
    - replace (53 - Z.pos (Pos.size p)) with 0 by lia. reflexivity.
    - replace (53 - Z.pos (Pos.size p)) with (Z.pos d) by lia. reflexivity. }
  rewrite A. cbv beta iota.
  assert (Q : Z.pos q = Z.pos q * 2 ^ 0) by (change (2 ^ 0) with 1; lia).
  etransitivity;
    [ exact (round_exact false q q (Z.pos (Pos.size p) - 53) 0 Sq
               (Z.le_refl 0) Q ltac:(lia)) | ].
  now rewrite Z.add_0_r.
Qed.

Lemma mul_canon (a b : positive) :
  Z.pos (Pos.size (a * b)) <= 53 ->
  SFmul prec emax (canon a) (canon b) = canon (a * b).
Proof.
  intros S.
  assert (Sa : Z.pos (Pos.size a) <= 53).
  { pose proof (size_monotone a (a * b)). nia. }
  assert (Sb : Z.pos (Pos.size b) <= 53).
  { pose proof (size_monotone b (a * b)). nia. }
  pose proof (size_mul_lower a b) as Low.
  destruct (canon_mantissa a Sa) as [Ea _], (canon_mantissa b Sb) as [Eb _],
    (canon_mantissa (a * b) S) as [Eab Sq].
  unfold canon. cbn [SFmul xorb].
  set (sa := Z.pos (Pos.size a)) in *. set (sb := Z.pos (Pos.size b)) in *.
  set (sab := Z.pos (Pos.size (a * b))) in *.
  rewrite (round_exact false _ _ _ (53 + sab - sa - sb) Sq); try lia.
  - f_equal. lia.
  - rewrite Pos2Z.inj_mul, Ea, Eb, Eab, Pos2Z.inj_mul.
    assert (P : 2 ^ (53 - sa) * 2 ^ (53 - sb)
                = 2 ^ (53 - sab) * 2 ^ (53 + sab - sa - sb)).
    { rewrite <- !Z.pow_add_r by lia. f_equal. lia. }
    revert P.
    generalize (2 ^ (53 - sa)), (2 ^ (53 - sb)), (2 ^ (53 - sab)),
      (2 ^ (53 + sab - sa - sb)).
    intros x y z w P.
    transitivity (Z.pos a * Z.pos b * (x * y)); [ ring | ].
    rewrite P. ring.
Qed.

Lemma leb_canon (a b : positive) :
  Z.pos (Pos.size a) <= 53 -> Z.pos (Pos.size b) <= 53 ->
  SFleb (canon a) (canon b) = (Z.pos a <=? Z.pos b).
Proof.
  intros Sa Sb.
  destruct (canon_mantissa a Sa) as [Ea _], (canon_mantissa b Sb) as [Eb _].
  destruct (size_bounds a) as [La Ua], (size_bounds b) as [Lb Ub].
  unfold canon, SFleb. cbn [SFcompare].
  set (ma := Pos.shiftl a _) in *. set (mb := Pos.shiftl b _) in *.
  set (sa := Z.pos (Pos.size a)) in *. set (sb := Z.pos (Pos.size b)) in *.
  change (Pos.compare_cont Eq ma mb) with (Pos.compare ma mb).
  destruct (Z.compare_spec (sa - 53) (sb - 53)) as [E | L | G].
  - assert (sa = sb) as Es by lia. rewrite <- Es in Eb.
    assert (0 < 2 ^ (53 - sa)) by (apply Z.pow_pos_nonneg; lia).
    destruct (Pos.compare_spec ma mb) as [C | C | C]; symmetry.
    + apply Z.leb_le. apply (f_equal Z.pos) in C. nia.
    + apply Z.leb_le. apply Pos2Z.pos_lt_pos in C. nia.
    + apply Z.leb_gt. apply Pos2Z.pos_lt_pos in C. nia.
  - symmetry. apply Z.leb_le.
    assert (2 ^ sa <= 2 ^ (sb - 1)) by (apply Z.pow_le_mono_r; lia). lia.
  - symmetry. apply Z.leb_gt.
    assert (2 ^ sb <= 2 ^ (sa - 1)) by (apply Z.pow_le_mono_r; lia). lia.
Qed.

End WholeNumbers.

Section WholeInputs.

Lemma whole_size (p : positive) :
  Z.pos p < 2 ^ 53 -> Z.pos (Pos.size p) <= 53.
Proof.
  intros B. destruct (size_bounds p) as [L _].
  assert (Z.pos (Pos.size p) - 1 < 53)
    by (apply (Z.pow_lt_mono_r_iff 2); lia).
  lia.
Qed.

Lemma whole_mul (p q : positive) :
  Z.pos p * Z.pos q < 2 ^ 53 ->
  (lit (Z.pos p) * lit (Z.pos q))%num = lit (Z.pos p * Z.pos q).
Proof.
  intros B. rewrite <- Pos2Z.inj_mul in *.
  pose proof (whole_size _ B) as S.
  assert (Sp : Z.pos (Pos.size p) <= 53).
  { pose proof (size_monotone p (p * q)). nia. }
  assert (Sq : Z.pos (Pos.size q) <= 53).
  { pose proof (size_monotone q (p * q)). nia. }
  rewrite !lit_canon by assumption. now apply mul_canon.
Qed.

Lemma whole_ge (p q : positive) :
  Z.pos p < 2 ^ 53 -> Z.pos q < 2 ^ 53 ->
  (lit (Z.pos p) >=? lit (Z.pos q))%num = (Z.pos q <=? Z.pos p).
Proof.
  intros Bp Bq. unfold ge.
  rewrite !lit_canon by now apply whole_size.
  apply leb_canon; now apply whole_size.
Qed.

Lemma whole_positive_finite (p : positive) :
  Z.pos p < 2 ^ 53 -> positive_finite (lit (Z.pos p)) = true.
Proof. intros B. now rewrite lit_canon by now apply whole_size. Qed.

Lemma whole_volume (a b c : positive) :
  Z.pos a * Z.pos b * Z.pos c < 2 ^ 53 ->
  (lit (Z.pos a) * lit (Z.pos b) * lit (Z.pos c))%num
  = lit (Z.pos a * Z.pos b * Z.pos c).
Proof.
  intros B. rewrite whole_mul by nia.
  rewrite <- Pos2Z.inj_mul. rewrite whole_mul; rewrite Pos2Z.inj_mul; [ reflexivity | exact B ].
Qed.

Lemma whole_isBulky (a b c : positive) :
  Z.pos a * Z.pos b * Z.pos c < 2 ^ 53 ->
  isBulky (lit (Z.pos a)) (lit (Z.pos b)) (lit (Z.pos c))
  = (1000000 <=? Z.pos a * Z.pos b * Z.pos c)
    || ((150 <=? Z.pos a) || (150 <=? Z.pos b) || (150 <=? Z.pos c)).
Proof.
  intros B. unfold isBulky. rewrite (whole_volume a b c B).
  rewrite <- !Pos2Z.inj_mul in *.
  rewrite !whole_ge; try reflexivity; try nia.
Qed.

Lemma whole_valid (a b c d : positive) :
  Z.pos a * Z.pos b * Z.pos c < 2 ^ 53 -> Z.pos d < 2 ^ 53 ->
  valid (lit (Z.pos a)) (lit (Z.pos b)) (lit (Z.pos c)) (lit (Z.pos d))
  = true.
Proof.
  intros B D. unfold valid.
  rewrite !whole_positive_finite; try reflexivity; try assumption; nia.
Qed.

End WholeInputs.

(** X12. Whole-number inputs are handled without rounding.  For whole
    numbers a, b, c, d greater than 0 with a * b * c and d below 2^53,
    the computed volume is the binary64 value of a * b * c, [isBulky] is
    the integer test a * b * c >= 1,000,000 or a >= 150 or b >= 150 or
    c >= 150, [isHeavy] is the integer test d >= 20, and [sort] returns
    the class the decision table gives for these two tests. *)
Theorem whole_numbers_exact (a b c d : Z) :
  0 < a -> 0 < b -> 0 < c -> 0 < d ->
  a * b * c < 2 ^ 53 -> d < 2 ^ 53 ->
  let bulky :=
    (1000000 <=? a * b * c) || ((150 <=? a) || (150 <=? b) || (150 <=? c)) in
  let heavy := 20 <=? d in
  (lit a * lit b * lit c)%num = lit (a * b * c)
  /\ isBulky (lit a) (lit b) (lit c) = bulky
  /\ isHeavy (lit d) = heavy
  /\ sort (lit a) (lit b) (lit c) (lit d) = Return (decision bulky heavy).
Proof.
  intros Pa Pb Pc Pd B D.
  destruct a as [ | a | a], b as [ | b | b], c as [ | c | c],
    d as [ | d | d]; try lia.
  cbv zeta.
  assert (H : isHeavy (lit (Z.pos d)) = (20 <=? Z.pos d)).
  { unfold isHeavy. now apply (whole_ge d 20). }
  split; [ exact (whole_volume a b c B) | ].
  split; [ exact (whole_isBulky a b c B) | ].
  split; [ exact H | ].
  now rewrite (sort_valid _ _ _ _ (whole_valid a b c d B D)),
    (whole_isBulky a b c B), H.
Qed.

Lemma whole_numbers_exact_witness :
  (lit 125 * lit 80 * lit 100)%num = lit 1000000
  /\ sort (lit 125) (lit 80) (lit 100) (lit 19) = Return SPECIAL.
Proof.
  destruct (whole_numbers_exact 125 80 100 19) as (Volume & _ & _ & Class);
    try reflexivity.
  split; [ exact Volume | exact Class ].
Defined.

Lemma product_Permutation (xs ys : list Z) :
  Permutation xs ys -> product xs = product ys.
Proof.
  unfold product.
  induction 1 as [ | x xs ys _ IH | x y xs | xs ys zs _ IH1 _ IH2 ]; cbn;
    [ reflexivity | now rewrite IH | ring | now rewrite IH1 ].
Qed.

(** X13. For whole-number dimensions the order does not matter: when a,
    b, c are greater than 0 with a * b * c below 2^53, [isBulky] and
    [sort] give the same answer for every permutation of the three
    dimensions, for any mass. *)
Theorem whole_numbers_any_order (a b c a' b' c' : Z) (mass : number) :
  0 < a -> 0 < b -> 0 < c -> a * b * c < 2 ^ 53 ->
  Permutation [a; b; c] [a'; b'; c'] ->
  isBulky (lit a') (lit b') (lit c') = isBulky (lit a) (lit b) (lit c)
  /\ sort (lit a') (lit b') (lit c') mass
     = sort (lit a) (lit b) (lit c) mass.
Proof.
  intros Pa Pb Pc B P.
  assert (Pos' : Forall (fun z => 0 < z) [a'; b'; c']).
  { apply (Permutation_Forall P). repeat constructor; assumption. }
  pose proof (product_Permutation _ _ P) as E. unfold product in E.
  cbn [fold_right] in E. rewrite !Z.mul_1_r, !Z.mul_assoc in E.
  inversion Pos' as [ | ? ? Pa' T1]; subst.
  inversion T1 as [ | ? ? Pb' T2]; subst.
  inversion T2 as [ | ? ? Pc' _]; subst.
  assert (P' : Permutation [lit a; lit b; lit c] [lit a'; lit b'; lit c'])
    by exact (Permutation_map lit P).
  assert (V : volumeExceeded (lit a') (lit b') (lit c')
              = volumeExceeded (lit a) (lit b) (lit c)).
  { unfold volumeExceeded.
    destruct a as [ | a | a], b as [ | b | b], c as [ | c | c]; try lia.
    destruct a' as [ | a' | a'], b' as [ | b' | b'], c' as [ | c' | c'];
      try lia.
    rewrite (whole_volume a b c B), (whole_volume a' b' c') by lia.
    now rewrite E. }
  assert (I : isBulky (lit a') (lit b') (lit c')
              = isBulky (lit a) (lit b) (lit c)).
  { rewrite !isBulky_tests, V, !dimensionExceeded_existsb.
    now rewrite (existsb_Permutation _ _ _ P'). }
  split; [ exact I | ].
  now rewrite !sort_after_validation, I,
    (validateInputs_Permutation _ _ _ _ _ _ _ P').
Qed.

Lemma whole_numbers_any_order_witness :
  sort (lit 100) (lit 125) (lit 80) (lit 5)
  = sort (lit 125) (lit 80) (lit 100) (lit 5).
Proof.
  apply (whole_numbers_any_order 125 80 100 100 125 80 (lit 5));
    try reflexivity.
  apply (perm_trans (perm_skip _ (perm_swap _ _ _)) (perm_swap _ _ _)).
Defined.
